(** * Baccarat shoe simulator: a shallow embedding of [baccarat_sim.py]

    Python integers are [Z]; Python lists of ranks are [list Z]; raised
    exceptions are the [Err] results of a small error monad; the
    [random.Random] object is an interface ([PyRandom]) whose generator
    state is threaded explicitly. *)

From Stdlib Require Import ZArith List String Ascii Bool Lia Permutation.
From Stdlib Require Import DecimalString DecimalPos DecimalZ.
From Equations Require Import Equations.
Import ListNotations.
Local Open Scope string_scope.
Local Open Scope list_scope.
Local Open Scope Z_scope.

(** ** Exceptions and the error monad *)

(** The only exception class the program can raise is [IndexError]: by the
    explicit [raise] in [deal_card], or by the list subscript. *)
Inductive exn : Type :=
| IndexError (msg : string).

Definition shoe_out_of_cards : exn := IndexError "shoe out of cards".
Definition list_index_out_of_range : exn := IndexError "list index out of range".

Inductive result (A : Type) : Type :=
| Ok (a : A)
| Err (e : exn).
Arguments Ok {A} a.
Arguments Err {A} e.

Definition bind {A B : Type} (m : result A) (k : A -> result B) : result B :=
  match m with
  | Ok a => k a
  | Err e => Err e
  end.

Notation "x <- m ;; k" := (bind m (fun x => k))
  (at level 61, m at next level, right associativity).
Notation "' p <- m ;; k" := (bind m (fun x => let p := x in k))
  (at level 61, p pattern, m at next level, right associativity).

(** ** Python list primitives *)

Definition len {A : Type} (l : list A) : Z := Z.of_nat (List.length l).

(** [l[i]]: a negative subscript counts from the end; a subscript outside
    [-len l, len l) raises. *)
Definition py_getitem (l : list Z) (i : Z) : result Z :=
  let j := if i <? 0 then i + len l else i in
  if (j <? 0) || (len l <=? j) then Err list_index_out_of_range
  else match nth_error l (Z.to_nat j) with
       | Some c => Ok c
       | None => Err list_index_out_of_range
       end.

(** [range(a, b)] *)
Definition range (a b : Z) : list Z :=
  map (fun k => a + Z.of_nat k) (seq 0 (Z.to_nat (b - a))).

(** ** Data model *)

Record HandResult : Type := mkHandResult {
  shoe_id : Z;
  hand_number : Z;
  player_cards : list Z;
  banker_cards : list Z;
  player_total : Z;
  banker_total : Z;
  winner : string;
  natural : bool
}.

(** ** Core baccarat logic *)

Definition baccarat_value (rank : Z) : Z :=
  if rank <? 10 then rank else 0.

Definition sum (l : list Z) : Z := fold_left Z.add l 0.

Definition hand_total (cards : list Z) : Z :=
  sum (map baccarat_value cards) mod 10.

Definition deal_card (shoe : list Z) (pos : Z) : result (Z * Z) :=
  if pos >=? len shoe then Err shoe_out_of_cards
  else c <- py_getitem shoe pos ;; Ok (c, pos + 1).

(** [x in (a, b, ...)] on a tuple of integer literals *)
Definition in_tuple (x : Z) (t : list Z) : bool := existsb (Z.eqb x) t.

(** The banker's reaction to the player's third card (the [if]/[elif]
    chain inside [play_hand]): each branch that fires deals one card to the
    banker; when none fires the banker stands. *)
Definition banker_reacts (shoe : list Z) (b_cards : list Z) (b_total p3_val pos : Z)
  : result (list Z * Z) :=
  if b_total <=? 2 then
    '(c, pos) <- deal_card shoe pos ;; Ok (b_cards ++ [c], pos)
  else if (b_total =? 3) && negb (p3_val =? 8) then
    '(c, pos) <- deal_card shoe pos ;; Ok (b_cards ++ [c], pos)
  else if (b_total =? 4) && in_tuple p3_val [2; 3; 4; 5; 6; 7] then
    '(c, pos) <- deal_card shoe pos ;; Ok (b_cards ++ [c], pos)
  else if (b_total =? 5) && in_tuple p3_val [4; 5; 6; 7] then
    '(c, pos) <- deal_card shoe pos ;; Ok (b_cards ++ [c], pos)
  else if (b_total =? 6) && in_tuple p3_val [6; 7] then
    '(c, pos) <- deal_card shoe pos ;; Ok (b_cards ++ [c], pos)
  else Ok (b_cards, pos).

(** The "decide winner" block of [play_hand]. *)
Definition decide_winner (p_total b_total : Z) : string :=
  if p_total >? b_total then "P"
  else if b_total >? p_total then "B"
  else "T".

Definition play_hand (shoe : list Z) (pos : Z) : result (HandResult * Z) :=
  let p_cards : list Z := [] in
  let b_cards : list Z := [] in
  '(c, pos) <- deal_card shoe pos ;;
  let p_cards := p_cards ++ [c] in
  '(c, pos) <- deal_card shoe pos ;;
  let b_cards := b_cards ++ [c] in
  '(c, pos) <- deal_card shoe pos ;;
  let p_cards := p_cards ++ [c] in
  '(c, pos) <- deal_card shoe pos ;;
  let b_cards := b_cards ++ [c] in
  let p_total := hand_total p_cards in
  let b_total := hand_total b_cards in
  let natural := false in
  '(p_cards, b_cards, p_total, b_total, natural, pos) <-
    (if in_tuple p_total [8; 9] || in_tuple b_total [8; 9] then
       let natural := true in
       Ok (p_cards, b_cards, p_total, b_total, natural, pos)
     else
       '(p_cards, b_cards, p_total, b_total, pos) <-
         (if p_total <=? 5 then
            '(c, pos) <- deal_card shoe pos ;;
            let p_cards := p_cards ++ [c] in
            let p_total := hand_total p_cards in
            let p3_val := baccarat_value c in
            let b_total := hand_total b_cards in
            '(b_cards, pos) <- banker_reacts shoe b_cards b_total p3_val pos ;;
            Ok (p_cards, b_cards, p_total, b_total, pos)
          else
            let b_total := hand_total b_cards in
            if b_total <=? 5 then
              '(c, pos) <- deal_card shoe pos ;;
              let b_cards := b_cards ++ [c] in
              Ok (p_cards, b_cards, p_total, b_total, pos)
            else Ok (p_cards, b_cards, p_total, b_total, pos)) ;;
       let p_total := hand_total p_cards in
       let b_total := hand_total b_cards in
       Ok (p_cards, b_cards, p_total, b_total, natural, pos)) ;;
  let winner := decide_winner p_total b_total in
  Ok (mkHandResult (-1) (-1) p_cards b_cards p_total b_total winner natural,
      pos).

Example play_hand_natural_tie :
  play_hand [8; 8; 1; 1] 0
  = Ok (mkHandResult (-1) (-1) [8; 1] [8; 1] 9 9 "T" true, 4).
Proof. reflexivity. Qed.

Example play_hand_banker_four_draws :
  play_hand [3; 1; 2; 3; 6; 10] 0
  = Ok (mkHandResult (-1) (-1) [3; 2; 6] [1; 3; 10] 1 4 "B" false, 6).
Proof. reflexivity. Qed.

Example play_hand_short_shoe :
  play_hand [3; 1; 2; 3] 0 = Err shoe_out_of_cards.
Proof. reflexivity. Qed.

(** ** The random source *)

(** The interface of [random.Random] the program uses.  [rng] is the state
    of a generator object; [world] is the operating system's entropy, read
    only when a generator is created without a seed.  [shuffle] permutes
    the list in place. *)
Class PyRandom : Type := {
  rng : Type;
  world : Type;
  seed_int : Z -> rng;
  seed_os : world -> rng * world;
  randint : Z -> Z -> rng -> Z * rng;
  shuffle : list Z -> rng -> list Z * rng;
  shuffle_perm : forall l g, Permutation l (fst (shuffle l g))
}.

(** [random.Random(a)] *)
Definition Random {R : PyRandom} (a : option Z) (w : world) : rng * world :=
  match a with
  | Some s => (seed_int s, w)
  | None => seed_os w
  end.

Definition build_shoe {R : PyRandom} (num_decks : Z) (g : rng) : list Z * rng :=
  let shoe : list Z := [] in
  let shoe :=
    fold_left (fun shoe _ =>
      fold_left (fun shoe rank =>
        fold_left (fun shoe _suit => shoe ++ [rank]) (range 0 4) shoe)
        (range 1 14) shoe)
      (range 0 num_decks) shoe in
  shuffle shoe g.

(** ** Simulation wrappers *)

Definition set_shoe_id (res : HandResult) (v : Z) : HandResult :=
  mkHandResult v (hand_number res) (player_cards res) (banker_cards res)
    (player_total res) (banker_total res) (winner res) (natural res).

Definition set_hand_number (res : HandResult) (v : Z) : HandResult :=
  mkHandResult (shoe_id res) v (player_cards res) (banker_cards res)
    (player_total res) (banker_total res) (winner res) (natural res).

(** The condition of the [while] loop of [simulate_shoe]. *)
Definition loop_guard (shoe : list Z) (max_hands : option Z) (hand_number pos : Z) : bool :=
  (match max_hands with None => true | Some m => hand_number <=? m end)
  && (pos + 6 <=? len shoe).

Definition inspect {A : Type} (a : A) : {b : A | a = b} := exist _ a eq_refl.

Lemma deal_card_inv shoe pos c pos' :
  deal_card shoe pos = Ok (c, pos') ->
  pos' = pos + 1 /\ pos < len shoe /\ py_getitem shoe pos = Ok c.
Proof.
  unfold deal_card. rewrite Z.geb_leb.
  destruct (len shoe <=? pos) eqn:E; [discriminate|].
  apply Z.leb_gt in E. destruct (py_getitem shoe pos); simpl; [|discriminate].
  intros [= <- <-]. auto.
Qed.

Lemma banker_reacts_pos shoe b_cards b_total p3 pos b_cards' pos' :
  banker_reacts shoe b_cards b_total p3 pos = Ok (b_cards', pos') ->
  pos <= pos' <= pos + 1.
Proof.
  unfold banker_reacts.
  repeat match goal with
  | |- context [if ?b then _ else _] => destruct b
  end;
  try (destruct (deal_card shoe pos) as [[c q]|] eqn:E; simpl; [|discriminate];
       apply deal_card_inv in E; intros [= <- <-]; lia);
  intros [= <- <-]; lia.
Qed.

Lemma play_hand_advances shoe pos res pos' :
  play_hand shoe pos = Ok (res, pos') -> pos + 4 <= pos' <= pos + 6.
Proof.
  unfold play_hand.
  destruct (deal_card shoe pos) as [[c1 q1]|] eqn:E1; simpl; [|discriminate].
  destruct (deal_card shoe q1) as [[c2 q2]|] eqn:E2; simpl; [|discriminate].
  destruct (deal_card shoe q2) as [[c3 q3]|] eqn:E3; simpl; [|discriminate].
  destruct (deal_card shoe q3) as [[c4 q4]|] eqn:E4; simpl; [|discriminate].
  apply deal_card_inv in E1, E2, E3, E4.
  destruct (_ || _); simpl.
  - intros [= <- <-]. lia.
  - destruct (_ <=? 5).
    + destruct (deal_card shoe q4) as [[c5 q5]|] eqn:E5; simpl; [|discriminate].
      apply deal_card_inv in E5.
      destruct (banker_reacts _ _ _ _ _) as [[bc q6]|] eqn:E6; simpl; [|discriminate].
      apply banker_reacts_pos in E6. intros [= <- <-]. lia.
    + destruct (_ <=? 5).
      * destruct (deal_card shoe q4) as [[c5 q5]|] eqn:E5; simpl; [|discriminate].
        apply deal_card_inv in E5. intros [= <- <-]. lia.
      * simpl. intros [= <- <-]. lia.
Qed.

Equations? deal_loop (shoe : list Z) (shoe_id : Z) (max_hands : option Z)
    (hand_number pos : Z) (results : list HandResult)
  : result (list HandResult)
  by wf (Z.to_nat (len shoe - pos)) lt :=
  deal_loop shoe shoe_id max_hands hand_number pos results
    with inspect (loop_guard shoe max_hands hand_number pos) := {
    | exist _ false _ => Ok results
    | exist _ true Hguard with inspect (play_hand shoe pos) := {
      | exist _ (Err e) _ => Err e
      | exist _ (Ok (res, pos')) Hplay =>
          let res := set_shoe_id res shoe_id in
          let res := set_hand_number res hand_number in
          let results := results ++ [res] in
          let hand_number := hand_number + 1 in
          deal_loop shoe shoe_id max_hands hand_number pos' results } }.
Proof.
  apply play_hand_advances in Hplay.
  unfold loop_guard in Hguard. apply andb_prop in Hguard as [_ Hg].
  apply Z.leb_le in Hg. lia.
Qed.

Definition simulate_shoe {R : PyRandom} (shoe_id num_decks burn_cards : Z)
    (max_hands rng_seed : option Z) (w : world)
  : result (list HandResult) * world :=
  let '(rng, w) := Random rng_seed w in
  let '(shoe, rng) := build_shoe num_decks rng in
  let pos := 0 in
  let burn_cards := Z.max 0 burn_cards in
  let pos := Z.min (len shoe) (pos + burn_cards) in
  let results : list HandResult := [] in
  let hand_number := 1 in
  (deal_loop shoe shoe_id max_hands hand_number pos results, w).

(** The body of the [for shoe_id in range(1, num_shoes + 1)] loop of
    [simulate_many_shoes], over the shoe identifiers still to run. *)
Fixpoint shoes_loop {R : PyRandom} (ids : list Z) (num_decks burn_cards : Z)
    (max_hands : option Z) (rng : rng) (all_results : list HandResult) (w : world)
  : result (list HandResult) * world :=
  match ids with
  | [] => (Ok all_results, w)
  | shoe_id :: ids =>
      let '(seed, rng) := randint 0 (10 ^ 9) rng in
      let '(r, w) := simulate_shoe shoe_id num_decks burn_cards max_hands (Some seed) w in
      match r with
      | Err e => (Err e, w)
      | Ok shoe_results =>
          let all_results := all_results ++ shoe_results in
          shoes_loop ids num_decks burn_cards max_hands rng all_results w
      end
  end.

Definition simulate_many_shoes {R : PyRandom} (num_shoes num_decks burn_cards : Z)
    (max_hands rng_seed : option Z) (w : world)
  : result (list HandResult) * world :=
  let all_results : list HandResult := [] in
  let '(rng, w) := Random rng_seed w in
  shoes_loop (range 1 (num_shoes + 1)) num_decks burn_cards max_hands rng all_results w.

(** ** Command line *)

(** The namespace [parse_args] returns: every option is declared
    [type=int] (or [str]) with no further check; only [--seed] defaults to
    [None]. *)
Record Args : Type := mkArgs {
  args_num_shoes : Z;
  args_decks : Z;
  args_burn_cards : Z;
  args_max_hands : Z;
  args_seed : option Z;
  args_output : string
}.

(** [main] after [parse_args], up to and including its call of
    [simulate_many_shoes]: the hands it goes on to hand to
    [export_to_csv].  [main_run] below continues with the report. *)
Definition main {R : PyRandom} (args : Args) (w : world)
  : result (list HandResult) * world :=
  simulate_many_shoes (args_num_shoes args) (args_decks args)
    (args_burn_cards args) (Some (args_max_hands args)) (args_seed args) w.

(** ** Report *)

(** A value handed to [csv.writer.writerow]: an integer or a string. *)
Inductive cell : Type :=
| CInt (n : Z)
| CStr (s : string).

(** [str(n)] for an integer [n]. *)
Definition str (n : Z) : string := NilZero.string_of_int (Z.to_int n).

(** [sep.join(parts)] *)
Definition join (sep : string) (parts : list string) : string :=
  String.concat sep parts.

(** [int(b)] for a boolean [b]. *)
Definition int_of_bool (b : bool) : Z := if b then 1 else 0.

Definition csv_header : list cell :=
  [CStr "shoe_id"; CStr "hand_number"; CStr "player_cards"; CStr "banker_cards";
   CStr "player_total"; CStr "banker_total"; CStr "winner"; CStr "natural"].

(** The list [export_to_csv] hands to [writerow] for one hand. *)
Definition csv_row (r : HandResult) : list cell :=
  [CInt (shoe_id r);
   CInt (hand_number r);
   CStr (join "-" (map str (player_cards r)));
   CStr (join "-" (map str (banker_cards r)));
   CInt (player_total r);
   CInt (banker_total r);
   CStr (winner r);
   CInt (int_of_bool (natural r))].

(** [export_to_csv]: the rows handed to the writer, in the order of the
    [writerow] calls.  The file is the writer's rendering of these rows. *)
Definition export_to_csv (results : list HandResult) : list (list cell) :=
  let f : list (list cell) := [] in
  let f := f ++ [csv_header] in
  fold_left (fun f r => f ++ [csv_row r]) results f.

Example str_examples :
  str 0 = "0" /\ str 13 = "13" /\ str (-1) = "-1" /\ str 1000000000 = "1000000000".
Proof. repeat split. Qed.

Example csv_row_example :
  csv_row (mkHandResult 2 5 [3; 2; 6] [1; 3; 10] 1 4 "B" false)
  = [CInt 2; CInt 5; CStr "3-2-6"; CStr "1-3-10"; CInt 1; CInt 4; CStr "B"; CInt 0].
Proof. reflexivity. Qed.

(** ** The program and the operating system *)











(** ** A concrete random source

    A linear congruential generator with an insertion shuffle: an instance
    of the interface on which the simulator can be run. *)
Module Lcg.

Definition modulus : Z := 2 ^ 31.

Definition next (g : Z) : Z := (1103515245 * g + 12345) mod modulus.

Definition draw (a b g : Z) : Z * Z :=
  let g := next g in (a + g mod (b - a + 1), g).

Definition insert_at (k : nat) (x : Z) (l : list Z) : list Z :=
  firstn k l ++ x :: skipn k l.

Fixpoint shuffle_into (acc l : list Z) (g : Z) : list Z * Z :=
  match l with
  | [] => (acc, g)
  | x :: l =>
      let g := next g in
      let k := Z.to_nat (g mod (len acc + 1)) in
      shuffle_into (insert_at k x acc) l g
  end.

Definition insertion_shuffle (l : list Z) (g : Z) : list Z * Z :=
  shuffle_into [] l g.

Lemma insert_at_perm k x l : Permutation (x :: l) (insert_at k x l).
Proof.
  unfold insert_at. rewrite <- (firstn_skipn k l) at 1.
  apply Permutation_middle.
Qed.

Lemma shuffle_into_perm l : forall acc g,
  Permutation (acc ++ l) (fst (shuffle_into acc l g)).
Proof.
  induction l as [|x l IH]; intros acc g; simpl.
  - rewrite app_nil_r. reflexivity.
  - rewrite <- IH. rewrite <- insert_at_perm.
    symmetry. apply Permutation_middle.
Qed.

Lemma insertion_shuffle_perm l g : Permutation l (fst (insertion_shuffle l g)).
Proof. exact (shuffle_into_perm l [] g). Qed.

#[export] Instance random : PyRandom := {|
  rng := Z;
  world := Z;
  seed_int := fun s => s mod modulus;
  seed_os := fun w => (w mod modulus, w + 1);
  randint := draw;
  shuffle := insertion_shuffle;
  shuffle_perm := insertion_shuffle_perm
|}.

End Lcg.

(** * Vocabulary of the properties *)

(** The sum of a hand's point values, written as a recursion on the hand. *)
Fixpoint points (cards : list Z) : Z :=
  match cards with
  | [] => 0
  | c :: cards => baccarat_value c + points cards
  end.

(** The card under a non-negative cursor. *)
Definition card_at (shoe : list Z) (i : Z) : Z := nth (Z.to_nat i) shoe 0.

Definition drew_third (cards : list Z) : Prop := List.length cards = 3%nat.

(** The banker's rule after a player's third card of value [P3], in the
    words of the tableau. *)
Definition banker_draws_on (banker_total P3 : Z) : Prop :=
  banker_total <= 2 \/
  (banker_total = 3 /\ P3 <> 8) \/
  (banker_total = 4 /\ In P3 [2; 3; 4; 5; 6; 7]) \/
  (banker_total = 5 /\ In P3 [4; 5; 6; 7]) \/
  (banker_total = 6 /\ In P3 [6; 7]).

(** The disjunction of the guards of the [if]/[elif] chain. *)
Definition banker_rule (b_total p3_val : Z) : bool :=
  (b_total <=? 2)
  || ((b_total =? 3) && negb (p3_val =? 8))
  || ((b_total =? 4) && in_tuple p3_val [2; 3; 4; 5; 6; 7])
  || ((b_total =? 5) && in_tuple p3_val [4; 5; 6; 7])
  || ((b_total =? 6) && in_tuple p3_val [6; 7]).

(** One deck in the order the two inner loops append it. *)
Definition one_deck : list Z :=
  flat_map (fun rank => [rank; rank; rank; rank]) (range 1 14).

Fixpoint decks (n : nat) : list Z :=
  match n with
  | O => []
  | S n => one_deck ++ decks n
  end.

Definition stamp (res : HandResult) (shoe_id hand_number : Z) : HandResult :=
  set_hand_number (set_shoe_id res shoe_id) hand_number.

(** The cursor after one more hand, and after [k] hands. *)
Definition next_cursor (shoe : list Z) (pos : Z) : Z :=
  match play_hand shoe pos with
  | Ok (_, pos') => pos'
  | Err _ => pos
  end.

Definition cursor_after (shoe : list Z) (start : Z) (k : nat) : Z :=
  Nat.iter k (next_cursor shoe) start.

(** The loop stops before the hand that would follow [k] dealt hands, with
    the cursor at [pos]: the cap is reached, or fewer than six cards
    remain. *)
Definition stops (shoe : list Z) (max_hands : option Z) (k : nat) (pos : Z) : Prop :=
  (exists cap, max_hands = Some cap /\ cap <= Z.of_nat k) \/
  len shoe - pos < 6.

(** The child seeds the batch loop draws, each paired with the shoe it is
    drawn for, in the order of the shoe identifiers. *)
Fixpoint child_seeds {R : PyRandom} (ids : list Z) (g : rng) : list (Z * Z) :=
  match ids with
  | [] => []
  | shoe_id :: ids =>
      let '(seed, g) := randint 0 (10 ^ 9) g in
      (shoe_id, seed) :: child_seeds ids g
  end.

(** [shoe[a:b]] for [0 <= a <= b]. *)
Definition slice (shoe : list Z) (a b : Z) : list Z :=
  firstn (Z.to_nat (b - a)) (skipn (Z.to_nat a) shoe).

(** The cards of a hand in the order they left the shoe: Player, Banker,
    Player, Banker, then Player's third and Banker's third when drawn. *)
Definition deal_order (p_cards b_cards : list Z) : list Z :=
  match p_cards, b_cards with
  | p1 :: p2 :: p_rest, b1 :: b2 :: b_rest =>
      [p1; b1; p2; b2] ++ p_rest ++ b_rest
  | _, _ => []
  end.

(** The hands the loop of [simulate_shoe] appends when it is entered with
    [j] hands already dealt and the cursor at [pos], and the cursor it
    leaves. *)
Inductive run (shoe : list Z) (shoe_id : Z) (max_hands : option Z)
  : nat -> Z -> list HandResult -> Z -> Prop :=
| run_stop j pos :
    stops shoe max_hands j pos ->
    run shoe shoe_id max_hands j pos [] pos
| run_step j pos res pos' rest final :
    ~ stops shoe max_hands j pos ->
    play_hand shoe pos = Ok (res, pos') ->
    run shoe shoe_id max_hands (S j) pos' rest final ->
    run shoe shoe_id max_hands j pos
      (stamp res shoe_id (Z.of_nat j + 1) :: rest) final.

(** The cards of a hand in dealing order. *)
Definition hand_cards (r : HandResult) : list Z :=
  deal_order (player_cards r) (banker_cards r).

(** The hand numbers [j + 1, ..., j + n]. *)
Definition numbers_from (j n : nat) : list Z :=
  map (fun k => Z.of_nat k + 1) (seq j n).

(** The shoe [simulate_shoe] deals from, and the cursor after the burn. *)
Definition shoe_of {R : PyRandom} (num_decks : Z) (rng_seed : option Z) (w : world)
  : list Z :=
  fst (build_shoe num_decks (fst (Random rng_seed w))).

Definition burn_offset (shoe : list Z) (burn_cards : Z) : Z :=
  Z.min (len shoe) (Z.max 0 burn_cards).

(** The number of cards left in a [num_decks]-deck shoe after the burn. *)
Definition cards_after_burn (num_decks burn_cards : Z) : Z :=
  52 * Z.max 0 num_decks - Z.min (52 * Z.max 0 num_decks) (Z.max 0 burn_cards).

(** What the fields of a hand say about one another. *)
Definition consistent (r : HandResult) : Prop :=
  2 <= len (player_cards r) <= 3 /\
  2 <= len (banker_cards r) <= 3 /\
  player_total r = hand_total (player_cards r) /\
  banker_total r = hand_total (banker_cards r) /\
  winner r = decide_winner (player_total r) (banker_total r) /\
  (natural r = true <->
   In (hand_total (firstn 2 (player_cards r))) [8; 9] \/
   In (hand_total (firstn 2 (banker_cards r))) [8; 9]) /\
  (natural r = true ->
   len (player_cards r) = 2 /\ len (banker_cards r) = 2).

(** Every card of the hand is a rank 1..13. *)
Definition ranks_valid (r : HandResult) : Prop :=
  Forall (fun c => 1 <= c <= 13) (player_cards r ++ banker_cards r).

(** [all(p(ch) for ch in s)] *)
Fixpoint string_forall (p : ascii -> bool) (s : string) : bool :=
  match s with
  | EmptyString => true
  | String ch s => p ch && string_forall p s
  end.

Definition is_digit (ch : ascii) : bool :=
  (48 <=? nat_of_ascii ch)%nat && (nat_of_ascii ch <=? 57)%nat.

Definition is_dash (ch : ascii) : bool := Ascii.eqb ch "-".




(** [s.split(sep)] for a one-character separator. *)
Fixpoint split_on (sep : ascii) (s : string) : list string :=
  match s with
  | EmptyString => [EmptyString]
  | String ch s =>
      if Ascii.eqb ch sep then EmptyString :: split_on sep s
      else match split_on sep s with
           | part :: parts => String ch part :: parts
           | [] => [String ch EmptyString]
           end
  end.

Definition nonneg_cards (r : HandResult) : Prop :=
  Forall (fun c => 0 <= c) (player_cards r ++ banker_cards r).

(** * Properties *)

(** ** Hand evaluator *)

Lemma fold_left_add_shift (l : list Z) : forall a,
  fold_left Z.add l a = a + fold_left Z.add l 0.
Proof.
  induction l as [|x l IH]; intros a; simpl.
  - lia.
  - rewrite IH, (IH x). lia.
Qed.

Lemma sum_points cards : sum (map baccarat_value cards) = points cards.
Proof.
  unfold sum. induction cards as [|c cards IH]; simpl; [reflexivity|].
  rewrite fold_left_add_shift, IH. reflexivity.
Qed.

Lemma hand_total_range cards : 0 <= hand_total cards <= 9.
Proof.
  unfold hand_total.
  pose proof (Z.mod_pos_bound (sum (map baccarat_value cards)) 10). lia.
Qed.

(** C7: [baccarat_value] is the identity on ranks 1..9 and 0 on ranks
    10..13; [hand_total] of a non-empty hand is the sum of its cards'
    values modulo 10 and lies in [0, 9].  Both are total functions. *)
Theorem evaluator_correct :
  (forall rank, 1 <= rank <= 9 -> baccarat_value rank = rank) /\
  (forall rank, 10 <= rank <= 13 -> baccarat_value rank = 0) /\
  (forall cards, cards <> [] ->
     hand_total cards = points cards mod 10 /\ 0 <= hand_total cards <= 9).
Proof.
  repeat split.
  - intros rank Hr. unfold baccarat_value. destruct (Z.ltb_spec rank 10); lia.
  - intros rank Hr. unfold baccarat_value. destruct (Z.ltb_spec rank 10); lia.
  - unfold hand_total. now rewrite sum_points.
  - apply hand_total_range.
  - apply hand_total_range.
Qed.

Lemma evaluator_correct_witness :
  baccarat_value 7 = 7 /\ baccarat_value 12 = 0 /\
  hand_total [7; 12; 5] = points [7; 12; 5] mod 10 /\
  0 <= hand_total [7; 12; 5] <= 9.
Proof.
  destruct evaluator_correct as (Hlow & Hhigh & Htotal).
  split; [apply Hlow; lia|].
  split; [apply Hhigh; lia|].
  apply Htotal. discriminate.
Defined.

(** ** Hand dealer *)

Lemma in_tuple_In x t : in_tuple x t = true <-> In x t.
Proof.
  unfold in_tuple. rewrite existsb_exists. split.
  - intros (y & Hy & Heq). apply Z.eqb_eq in Heq. now subst.
  - intros Hx. exists x. split; [assumption|apply Z.eqb_refl].
Qed.

Lemma banker_rule_spec b_total p3_val :
  banker_rule b_total p3_val = true <-> banker_draws_on b_total p3_val.
Proof.
  unfold banker_rule, banker_draws_on.
  rewrite !orb_true_iff, !andb_true_iff, !in_tuple_In, negb_true_iff,
    Z.leb_le, !Z.eqb_eq, Z.eqb_neq.
  tauto.
Qed.

Lemma banker_reacts_rule shoe b_cards b_total p3_val pos :
  banker_reacts shoe b_cards b_total p3_val pos
  = if banker_rule b_total p3_val
    then '(c, pos) <- deal_card shoe pos ;; Ok (b_cards ++ [c], pos)
    else Ok (b_cards, pos).
Proof.
  unfold banker_reacts, banker_rule.
  destruct (b_total <=? 2); [reflexivity|].
  destruct ((b_total =? 3) && negb (p3_val =? 8)); [reflexivity|].
  destruct ((b_total =? 4) && in_tuple p3_val [2; 3; 4; 5; 6; 7]); [reflexivity|].
  destruct ((b_total =? 5) && in_tuple p3_val [4; 5; 6; 7]); [reflexivity|].
  destruct ((b_total =? 6) && in_tuple p3_val [6; 7]); reflexivity.
Qed.

Lemma py_getitem_in_range shoe pos :
  0 <= pos < len shoe -> py_getitem shoe pos = Ok (card_at shoe pos).
Proof.
  intros Hpos. unfold py_getitem, card_at.
  destruct (Z.ltb_spec pos 0); [lia|].
  destruct (Z.ltb_spec pos 0); [lia|].
  destruct (Z.leb_spec (len shoe) pos); [lia|]. simpl.
  destruct (nth_error shoe (Z.to_nat pos)) as [c|] eqn:E.
  - now rewrite (nth_error_nth _ _ _ E).
  - apply nth_error_None in E. unfold len in Hpos. lia.
Qed.

Lemma deal_card_in_range shoe pos :
  0 <= pos < len shoe -> deal_card shoe pos = Ok (card_at shoe pos, pos + 1).
Proof.
  intros Hpos. unfold deal_card. rewrite Z.geb_leb.
  destruct (Z.leb_spec (len shoe) pos); [lia|].
  now rewrite py_getitem_in_range.
Qed.

(** Run the dealer's first four [deal_card] calls on a shoe that holds
    them. *)
Ltac deal_initial shoe pos :=
  unfold play_hand;
  rewrite (deal_card_in_range shoe pos) by lia; cbn [bind];
  rewrite (deal_card_in_range shoe (pos + 1)) by lia; cbn [bind];
  rewrite (deal_card_in_range shoe (pos + 1 + 1)) by lia; cbn [bind];
  rewrite (deal_card_in_range shoe (pos + 1 + 1 + 1)) by lia; cbn [bind app].

(** C1: with at least six cards under the cursor, [play_hand] returns a
    hand, and when neither initial total is 8 or 9 the hand follows the
    tableau: Player draws a third card iff its total is at most 5; if Player
    stood (on 6 or 7), Banker draws iff its total is at most 5; if Player
    drew a card of value [P3], Banker draws iff the tableau's rule for
    (banker_total, P3) says so, and otherwise stands.  Third cards are the
    next cards of the shoe. *)
Theorem play_hand_tableau (shoe : list Z) (pos : Z) :
  0 <= pos -> pos + 6 <= len shoe ->
  exists res pos',
    play_hand shoe pos = Ok (res, pos') /\
    let P1 := card_at shoe pos in
    let B1 := card_at shoe (pos + 1) in
    let P2 := card_at shoe (pos + 2) in
    let B2 := card_at shoe (pos + 3) in
    let player_total := hand_total [P1; P2] in
    let banker_total := hand_total [B1; B2] in
    ~ In player_total [8; 9] -> ~ In banker_total [8; 9] ->
    (drew_third (player_cards res) <-> player_total <= 5) /\
    (~ drew_third (player_cards res) ->
       (player_total = 6 \/ player_total = 7) /\
       player_cards res = [P1; P2] /\
       (drew_third (banker_cards res) <-> banker_total <= 5)) /\
    (drew_third (player_cards res) ->
       let P3 := baccarat_value (card_at shoe (pos + 4)) in
       player_cards res = [P1; P2; card_at shoe (pos + 4)] /\
       (drew_third (banker_cards res) <-> banker_draws_on banker_total P3)) /\
    (banker_cards res = [B1; B2] \/
     banker_cards res = [B1; B2; card_at shoe (pos' - 1)]) /\
    pos' = pos + len (player_cards res) + len (banker_cards res).
Proof.
  intros Hpos Hlen.
  deal_initial shoe pos.
  replace (pos + 1 + 1) with (pos + 2) by lia.
  replace (pos + 2 + 1) with (pos + 3) by lia.
  replace (pos + 3 + 1) with (pos + 4) by lia.
  set (pt := hand_total [card_at shoe pos; card_at shoe (pos + 2)]).
  set (bt := hand_total [card_at shoe (pos + 1); card_at shoe (pos + 3)]).
  assert (Hpt : 0 <= pt <= 9) by apply hand_total_range.
  destruct (in_tuple pt [8; 9] || in_tuple bt [8; 9]) eqn:Enat.
  { eexists _, _. split; [reflexivity|]. intros Hp Hb. exfalso.
    apply orb_true_iff in Enat. rewrite !in_tuple_In in Enat. tauto. }
  destruct (Z.leb_spec pt 5) as [Hdraw|Hstand].
  - rewrite (deal_card_in_range shoe (pos + 4)) by lia. cbn [bind].
    rewrite banker_reacts_rule.
    pose proof (banker_rule_spec bt (baccarat_value (card_at shoe (pos + 4))))
      as Hrule.
    destruct (banker_rule bt (baccarat_value (card_at shoe (pos + 4)))).
    + rewrite (deal_card_in_range shoe (pos + 4 + 1)) by lia. cbn [bind app].
      eexists _, _. split; [reflexivity|]. intros Hp Hb.
      unfold drew_third, len. cbn [player_cards banker_cards List.length].
      replace (pos + 4 + 1 + 1 - 1) with (pos + 4 + 1) by lia.
      intuition (auto; lia).
    + cbn [bind]. eexists _, _. split; [reflexivity|]. intros Hp Hb.
      unfold drew_third, len. cbn [player_cards banker_cards List.length].
      intuition (auto; try discriminate; lia).
  - cbn [bind]. destruct (Z.leb_spec bt 5) as [Hbdraw|Hbstand].
    + rewrite (deal_card_in_range shoe (pos + 4)) by lia. cbn [bind app].
      eexists _, _. split; [reflexivity|]. intros Hp Hb. simpl in Hp.
      unfold drew_third, len. cbn [player_cards banker_cards List.length].
      replace (pos + 4 + 1 - 1) with (pos + 4) by lia.
      intuition (auto; try discriminate; lia).
    + cbn [bind]. eexists _, _. split; [reflexivity|]. intros Hp Hb. simpl in Hp.
      unfold drew_third, len. cbn [player_cards banker_cards List.length].
      intuition (auto; try discriminate; lia).
Qed.

(** The specification's scenario: Player [3, 2] draws a 6, Banker holds 4
    and draws. *)
Lemma play_hand_tableau_witness :
  exists res pos',
    play_hand [3; 1; 2; 3; 6; 10] 0 = Ok (res, pos') /\
    drew_third (player_cards res) /\ drew_third (banker_cards res).
Proof.
  destruct (play_hand_tableau [3; 1; 2; 3; 6; 10] 0) as (res & pos' & Hplay & Hrules).
  - lia.
  - vm_compute. discriminate.
  - exists res, pos'. split; [exact Hplay|].
    destruct Hrules as (Hplayer & _ & Hbanker & _).
    + vm_compute. intros [H|[H|[]]]; discriminate H.
    + vm_compute. intros [H|[H|[]]]; discriminate H.
    + assert (Hthird : drew_third (player_cards res)).
      { apply Hplayer. vm_compute. discriminate. }
      split; [exact Hthird|].
      apply (Hbanker Hthird). right; right; left.
      split; [reflexivity|]. vm_compute. tauto.
Defined.


Lemma py_getitem_inv shoe pos c :
  py_getitem shoe pos = Ok c -> 0 <= pos -> c = card_at shoe pos.
Proof.
  intros Hget Hpos. destruct (Z.lt_ge_cases pos (len shoe)) as [Hin|Hout].
  - rewrite py_getitem_in_range in Hget by lia. congruence.
  - unfold py_getitem in Hget.
    destruct (Z.ltb_spec pos 0); [lia|].
    destruct (Z.leb_spec (len shoe) pos); [|lia].
    rewrite orb_true_r in Hget. discriminate.
Qed.

(** Case analysis on the next [deal_card] call of the goal: it either
    raised, or returned a card and moved the cursor by one. *)
Ltac deal_next :=
  match goal with
  | |- context [deal_card ?shoe ?q] =>
      let c := fresh "c" in
      let q' := fresh "q" in
      let E := fresh "E" in
      destruct (deal_card shoe q) as [[c q']|] eqn:E; cbn [bind];
      [apply deal_card_inv in E; destruct E as (-> & ? & ?) | discriminate]
  end.

(** C2: for every hand [play_hand] deals, if either initial two-card
    total is 8 or 9 then neither side has a third card, the natural flag
    is set and the cursor has advanced by exactly 4; conversely a hand
    flagged natural has 4 cards in all, two a side, and the total of the
    final cards of at least one side, which is the total the hand
    records, is in {8, 9}. *)
Theorem play_hand_natural (shoe : list Z) (pos : Z) (res : HandResult) (pos' : Z) :
  play_hand shoe pos = Ok (res, pos') ->
  let player_initial := firstn 2 (player_cards res) in
  let banker_initial := firstn 2 (banker_cards res) in
  (0 <= pos ->
     player_initial = [card_at shoe pos; card_at shoe (pos + 2)] /\
     banker_initial = [card_at shoe (pos + 1); card_at shoe (pos + 3)]) /\
  (In (hand_total player_initial) [8; 9] \/ In (hand_total banker_initial) [8; 9] ->
     player_cards res = player_initial /\
     banker_cards res = banker_initial /\
     natural res = true /\
     pos' = pos + 4) /\
  (natural res = true ->
     len (player_cards res) = 2 /\
     len (banker_cards res) = 2 /\
     len (player_cards res) + len (banker_cards res) = 4 /\
     player_total res = hand_total (player_cards res) /\
     banker_total res = hand_total (banker_cards res) /\
     (In (hand_total (player_cards res)) [8; 9] \/
      In (hand_total (banker_cards res)) [8; 9]) /\
     (In (player_total res) [8; 9] \/ In (banker_total res) [8; 9])).
Proof.
  unfold play_hand. do 4 deal_next. cbn [app].
  assert (Hinit : 0 <= pos ->
            [c; c1] = [card_at shoe pos; card_at shoe (pos + 2)] /\
            [c0; c2] = [card_at shoe (pos + 1); card_at shoe (pos + 3)]).
  { intros Hpos.
    repeat match goal with
    | H : py_getitem _ _ = Ok _ |- _ => apply py_getitem_inv in H; [|lia]
    end.
    subst.
    replace (pos + 1 + 1) with (pos + 2) by lia.
    replace (pos + 2 + 1) with (pos + 3) by lia.
    split; reflexivity. }
  destruct (in_tuple (hand_total [c; c1]) [8; 9]
            || in_tuple (hand_total [c0; c2]) [8; 9]) eqn:Enat.
  - cbn [bind]. intros [= <- <-].
    cbn [player_cards banker_cards natural player_total banker_total firstn].
    apply orb_true_iff in Enat. rewrite !in_tuple_In in Enat.
    split; [exact Hinit|]. unfold len. cbn [List.length].
    split.
    + intros _. repeat split; try reflexivity. lia.
    + intros _. repeat split; try reflexivity; exact Enat.
  - apply orb_false_iff in Enat. rewrite <- !not_true_iff_false in Enat.
    rewrite !in_tuple_In in Enat.
    destruct (hand_total [c; c1] <=? 5).
    + deal_next. rewrite banker_reacts_rule.
      destruct (banker_rule _ _); [deal_next|]; cbn [bind];
        intros [= <- <-]; cbn [player_cards banker_cards natural firstn app];
        (split; [exact Hinit|split; [tauto|discriminate]]).
    + cbn [bind]. destruct (hand_total [c0; c2] <=? 5); [deal_next|]; cbn [bind];
        intros [= <- <-]; cbn [player_cards banker_cards natural firstn app];
        (split; [exact Hinit|split; [tauto|discriminate]]).
Qed.

(** The specification's scenario: the shoe [8, 8, 1, 1] dealt from
    cursor 0. *)
Lemma play_hand_natural_witness :
  let res := mkHandResult (-1) (-1) [8; 1] [8; 1] 9 9 "T" true in
  natural res = true /\ 4 = 0 + 4 /\
  (In (hand_total (player_cards res)) [8; 9] \/
   In (hand_total (banker_cards res)) [8; 9]).
Proof.
  intros res.
  pose proof (play_hand_natural [8; 8; 1; 1] 0 res 4 eq_refl)
    as (_ & Hnat & Hconv).
  destruct Hnat as (_ & _ & Hflag & Hcursor).
  - left. vm_compute. tauto.
  - split; [exact Hflag|]. split; [exact Hcursor|].
    apply (Hconv Hflag).
Defined.

Lemma decide_winner_spec p_total b_total :
  (decide_winner p_total b_total = "T" <-> p_total = b_total) /\
  (decide_winner p_total b_total = "P" <-> p_total > b_total) /\
  (decide_winner p_total b_total = "B" <-> b_total > p_total).
Proof.
  unfold decide_winner.
  destruct (Z.gtb_spec p_total b_total); [|destruct (Z.gtb_spec b_total p_total)];
    repeat split; intros; try discriminate; try reflexivity; lia.
Qed.

(** What every hand returned by [play_hand] looks like, whichever branch
    produced it. *)
Lemma play_hand_shape shoe pos res pos' :
  play_hand shoe pos = Ok (res, pos') ->
  shoe_id res = -1 /\ hand_number res = -1 /\
  player_total res = hand_total (player_cards res) /\
  banker_total res = hand_total (banker_cards res) /\
  winner res = decide_winner (player_total res) (banker_total res) /\
  (2 <= len (player_cards res) <= 3) /\
  (2 <= len (banker_cards res) <= 3) /\
  pos' = pos + len (player_cards res) + len (banker_cards res) /\
  pos' <= len shoe.
Proof.
  unfold play_hand. do 4 deal_next. cbn [app].
  destruct (_ || _).
  - cbn [bind]. intros [= <- <-]. cbn. repeat split; lia.
  - destruct (_ <=? 5).
    + deal_next. rewrite banker_reacts_rule.
      destruct (banker_rule _ _); [deal_next|]; cbn [bind];
        intros [= <- <-]; unfold len; cbn -[hand_total decide_winner Z.add];
        unfold len in *; repeat split; lia.
    + cbn [bind]. destruct (_ <=? 5); [deal_next|]; cbn [bind];
        intros [= <- <-]; unfold len; cbn -[hand_total decide_winner Z.add];
        unfold len in *; repeat split; lia.
Qed.

Lemma play_hand_succeeds shoe pos :
  0 <= pos -> pos + 6 <= len shoe ->
  exists res pos', play_hand shoe pos = Ok (res, pos').
Proof.
  intros Hpos Hlen. deal_initial shoe pos.
  destruct (_ || _); [eexists _, _; reflexivity|].
  destruct (_ <=? 5).
  - rewrite (deal_card_in_range shoe (pos + 1 + 1 + 1 + 1)) by lia. cbn [bind].
    rewrite banker_reacts_rule. destruct (banker_rule _ _).
    + rewrite (deal_card_in_range shoe (pos + 1 + 1 + 1 + 1 + 1)) by lia.
      eexists _, _; reflexivity.
    + eexists _, _; reflexivity.
  - cbn [bind]. destruct (_ <=? 5).
    + rewrite (deal_card_in_range shoe (pos + 1 + 1 + 1 + 1)) by lia.
      eexists _, _; reflexivity.
    + eexists _, _; reflexivity.
Qed.

(** C3: in every hand [play_hand] returns, both totals are the totals of
    the final card sequences, and the winner is "T" iff they are equal,
    "P" iff Player's is higher, "B" iff Banker's is higher. *)
Theorem play_hand_winner (shoe : list Z) (pos : Z) (res : HandResult) (pos' : Z) :
  play_hand shoe pos = Ok (res, pos') ->
  player_total res = hand_total (player_cards res) /\
  banker_total res = hand_total (banker_cards res) /\
  (winner res = "T" <-> player_total res = banker_total res) /\
  (winner res = "P" <-> player_total res > banker_total res) /\
  (winner res = "B" <-> banker_total res > player_total res).
Proof.
  intros Hplay.
  destruct (play_hand_shape _ _ _ _ Hplay) as (_ & _ & Hp & Hb & Hw & _).
  rewrite Hw. split; [exact Hp|]. split; [exact Hb|].
  apply decide_winner_spec.
Qed.

Lemma play_hand_winner_witness :
  winner (mkHandResult (-1) (-1) [3; 2; 6] [1; 3; 10] 1 4 "B" false) = "B" <->
  4 > 1.
Proof.
  apply (play_hand_winner [3; 1; 2; 3; 6; 10] 0
           (mkHandResult (-1) (-1) [3; 2; 6] [1; 3; 10] 1 4 "B" false) 6
           eq_refl).
Defined.

(** ** The dealing loop *)

Lemma deal_loop_step shoe shoe_id max_hands hand_number pos results :
  deal_loop shoe shoe_id max_hands hand_number pos results
  = if loop_guard shoe max_hands hand_number pos then
      match play_hand shoe pos with
      | Ok (res, pos') =>
          deal_loop shoe shoe_id max_hands (hand_number + 1) pos'
            (results ++ [set_hand_number (set_shoe_id res shoe_id) hand_number])
      | Err e => Err e
      end
    else Ok results.
Proof.
  funelim (deal_loop shoe shoe_id max_hands hand_number pos results);
    repeat match goal with
    | H : loop_guard _ _ _ _ = _ |- _ => rewrite H
    | H : play_hand _ _ = _ |- _ => rewrite H
    end; reflexivity.
Qed.

Lemma loop_guard_stops shoe max_hands k pos :
  loop_guard shoe max_hands (Z.of_nat k + 1) pos = false <->
  stops shoe max_hands k pos.
Proof.
  unfold loop_guard, stops. rewrite andb_false_iff, Z.leb_gt.
  destruct max_hands as [cap|].
  - rewrite Z.leb_gt. split.
    + intros [H|H]; [left; exists cap; split; [reflexivity|lia]|right; lia].
    + intros [(cap' & [= <-] & H)|H]; [left|right]; lia.
  - split.
    + intros [H|H]; [discriminate|right; lia].
    + intros [(cap' & [=] & _)|H]. right; lia.
Qed.

Lemma cursor_after_succ shoe pos k :
  cursor_after shoe pos (S k) = cursor_after shoe (next_cursor shoe pos) k.
Proof. unfold cursor_after. apply Nat.iter_succ_r. Qed.

(** The loop entered with [j] hands already dealt and a non-negative
    cursor returns; it appends the hands [play_hand] deals from the
    successive cursors, numbered from [j + 1], as long as the guard holds,
    and nothing after the guard first fails. *)
Lemma deal_loop_trace shoe shoe_id max_hands :
  forall (bound j : nat) (pos : Z) (results : list HandResult),
    0 <= pos -> (Z.to_nat (len shoe - pos) < bound)%nat ->
    exists dealt,
      deal_loop shoe shoe_id max_hands (Z.of_nat j + 1) pos results
      = Ok (results ++ dealt) /\
      stops shoe max_hands (j + List.length dealt)
        (cursor_after shoe pos (List.length dealt)) /\
      (forall k, (k < List.length dealt)%nat ->
         ~ stops shoe max_hands (j + k) (cursor_after shoe pos k)) /\
      (forall k, (k < List.length dealt)%nat ->
         exists res,
           play_hand shoe (cursor_after shoe pos k)
           = Ok (res, cursor_after shoe pos (S k)) /\
           nth_error dealt k = Some (stamp res shoe_id (Z.of_nat (j + k) + 1))).
Proof.
  induction bound as [|bound IH]; intros j pos results Hpos Hbound; [lia|].
  rewrite deal_loop_step.
  destruct (loop_guard shoe max_hands (Z.of_nat j + 1) pos) eqn:Hguard.
  - assert (Hroom : pos + 6 <= len shoe).
    { unfold loop_guard in Hguard. apply andb_prop in Hguard as [_ Hg].
      now apply Z.leb_le in Hg. }
    destruct (play_hand_succeeds shoe pos Hpos Hroom) as (res & pos' & Hplay).
    rewrite Hplay.
    pose proof (play_hand_shape _ _ _ _ Hplay) as (_ & _ & _ & _ & _ & Hp & Hb & Hpos' & _).
    assert (Hnext : next_cursor shoe pos = pos').
    { unfold next_cursor. now rewrite Hplay. }
    replace (Z.of_nat j + 1 + 1) with (Z.of_nat (S j) + 1) by lia.
    destruct (IH (S j) pos'
                (results ++ [set_hand_number (set_shoe_id res shoe_id) (Z.of_nat j + 1)]))
      as (dealt & Hloop & Hstop & Hgo & Hhands); [lia|lia|].
    exists (stamp res shoe_id (Z.of_nat j + 1) :: dealt).
    split; [|split; [|split]].
    + rewrite Hloop, <- app_assoc. reflexivity.
    + cbn [List.length]. rewrite cursor_after_succ, Hnext.
      replace (j + S (List.length dealt))%nat with (S j + List.length dealt)%nat by lia.
      exact Hstop.
    + intros [|k] Hk.
      * rewrite Nat.add_0_r. cbn. rewrite <- loop_guard_stops, Hguard. discriminate.
      * rewrite cursor_after_succ, Hnext.
        replace (j + S k)%nat with (S j + k)%nat by lia.
        apply Hgo. cbn [List.length] in Hk. lia.
    + intros [|k] Hk.
      * exists res. rewrite cursor_after_succ. cbn -[play_hand].
        rewrite Hnext, Nat.add_0_r. split; [exact Hplay|reflexivity].
      * cbn [List.length] in Hk.
        destruct (Hhands k) as (res' & Hplay' & Hnth); [lia|].
        exists res'. rewrite !cursor_after_succ, Hnext.
        rewrite cursor_after_succ in Hplay'.
        replace (j + S k)%nat with (S j + k)%nat by lia.
        split; [exact Hplay'|exact Hnth].
  - exists []. rewrite app_nil_r. split; [reflexivity|].
    cbn [List.length]. rewrite Nat.add_0_r.
    split; [|split].
    + apply loop_guard_stops. exact Hguard.
    + intros k Hk. lia.
    + intros k Hk. lia.
Qed.

(** ** Shoe construction *)

Lemma fold_left_ext {A B : Type} (f g : A -> B -> A) (l : list B) :
  (forall a b, f a b = g a b) ->
  forall a, fold_left f l a = fold_left g l a.
Proof.
  intros Hfg. induction l as [|b l IH]; intros a; simpl; [reflexivity|].
  rewrite Hfg. apply IH.
Qed.

Lemma fold_left_append {A B : Type} (f : B -> list A) (l : list B) :
  forall acc, fold_left (fun acc b => acc ++ f b) l acc = acc ++ flat_map f l.
Proof.
  induction l as [|b l IH]; intros acc; simpl.
  - now rewrite app_nil_r.
  - rewrite IH. now rewrite <- app_assoc.
Qed.

Lemma suits_loop (rank : Z) (shoe : list Z) :
  fold_left (fun shoe (_suit : Z) => shoe ++ [rank]) (range 0 4) shoe
  = shoe ++ [rank; rank; rank; rank].
Proof.
  change (range 0 4) with [0; 1; 2; 3]. simpl.
  now rewrite <- !app_assoc.
Qed.

Lemma ranks_loop (shoe : list Z) :
  fold_left (fun shoe rank =>
      fold_left (fun shoe (_suit : Z) => shoe ++ [rank]) (range 0 4) shoe)
    (range 1 14) shoe
  = shoe ++ one_deck.
Proof.
  rewrite (fold_left_ext _ (fun shoe rank => shoe ++ [rank; rank; rank; rank])).
  - apply fold_left_append.
  - intros; apply suits_loop.
Qed.

Lemma flat_map_const {A B : Type} (d : list A) (l : list B) :
  flat_map (fun _ => d) l = List.concat (repeat d (List.length l)).
Proof. induction l; simpl; congruence. Qed.

Lemma concat_repeat_decks n : List.concat (repeat one_deck n) = decks n.
Proof. induction n; simpl; congruence. Qed.

Lemma range_length a b : List.length (range a b) = Z.to_nat (b - a).
Proof. unfold range. now rewrite length_map, length_seq. Qed.

Lemma decks_loop (num_decks : Z) :
  fold_left (fun shoe (_ : Z) =>
      fold_left (fun shoe rank =>
          fold_left (fun shoe (_suit : Z) => shoe ++ [rank]) (range 0 4) shoe)
        (range 1 14) shoe)
    (range 0 num_decks) []
  = decks (Z.to_nat num_decks).
Proof.
  rewrite (fold_left_ext _ (fun shoe _ => shoe ++ one_deck)).
  - rewrite fold_left_append. simpl.
    rewrite flat_map_const, range_length, concat_repeat_decks.
    now rewrite Z.sub_0_r.
  - intros; apply ranks_loop.
Qed.

Lemma decks_length n : List.length (decks n) = (52 * n)%nat.
Proof.
  induction n as [|n IH]; [reflexivity|].
  change (decks (S n)) with (one_deck ++ decks n).
  rewrite length_app, IH.
  change (List.length one_deck) with 52%nat. lia.
Qed.

Lemma one_deck_count rank :
  1 <= rank <= 13 -> count_occ Z.eq_dec one_deck rank = 4%nat.
Proof.
  intros Hr.
  assert (Hcases : In rank (range 1 14)).
  { unfold range. apply in_map_iff. exists (Z.to_nat (rank - 1)).
    split; [lia|]. apply in_seq. lia. }
  vm_compute in Hcases.
  repeat (destruct Hcases as [<- | Hcases]; [vm_compute; reflexivity|]).
  contradiction.
Qed.

Lemma decks_count n rank :
  1 <= rank <= 13 -> count_occ Z.eq_dec (decks n) rank = (4 * n)%nat.
Proof.
  intros Hr. induction n as [|n IH]; [reflexivity|].
  change (decks (S n)) with (one_deck ++ decks n).
  rewrite count_occ_app, IH, one_deck_count by assumption. lia.
Qed.

Section Simulator.

Context `{R : PyRandom}.

Lemma build_shoe_perm num_decks g :
  Permutation (decks (Z.to_nat num_decks)) (fst (build_shoe num_decks g)).
Proof.
  unfold build_shoe. rewrite decks_loop. apply shuffle_perm.
Qed.

Lemma build_shoe_len num_decks g :
  len (fst (build_shoe num_decks g)) = 52 * Z.max 0 num_decks.
Proof.
  unfold len. rewrite <- (Permutation_length (build_shoe_perm num_decks g)).
  rewrite decks_length. lia.
Qed.

(** C8: for a deck count [D >= 1], whatever permutation the shuffle
    applies, the shoe has exactly [52 * D] cards and holds each rank
    1..13 exactly [4 * D] times. *)
Theorem build_shoe_composition (D : Z) (g : rng) :
  1 <= D ->
  len (fst (build_shoe D g)) = 52 * D /\
  forall rank, 1 <= rank <= 13 ->
    Z.of_nat (count_occ Z.eq_dec (fst (build_shoe D g)) rank) = 4 * D.
Proof.
  intros HD. split.
  - rewrite build_shoe_len. lia.
  - intros rank Hr.
    rewrite <- (proj1 (Permutation_count_occ Z.eq_dec _ _) (build_shoe_perm D g) rank).
    rewrite decks_count by assumption. lia.
Qed.

(** ** Shoe simulator *)

Lemma simulate_shoe_eq shoe_id num_decks burn_cards max_hands rng_seed w :
  simulate_shoe shoe_id num_decks burn_cards max_hands rng_seed w
  = (let shoe := fst (build_shoe num_decks (fst (Random rng_seed w))) in
     deal_loop shoe shoe_id max_hands 1
       (Z.min (len shoe) (0 + Z.max 0 burn_cards)) [],
     snd (Random rng_seed w)).
Proof.
  unfold simulate_shoe.
  destruct (Random rng_seed w) as [g w']. cbn [fst snd].
  destruct (build_shoe num_decks g) as [shoe g'].
  reflexivity.
Qed.

Lemma simulate_shoe_returns shoe_id num_decks burn_cards max_hands rng_seed w :
  exists results,
    fst (simulate_shoe shoe_id num_decks burn_cards max_hands rng_seed w)
    = Ok results.
Proof.
  rewrite simulate_shoe_eq. cbn [fst].
  set (shoe := fst (build_shoe num_decks (fst (Random rng_seed w)))).
  set (start := Z.min (len shoe) (0 + Z.max 0 burn_cards)).
  destruct (deal_loop_trace shoe shoe_id max_hands
              (S (Z.to_nat (len shoe - start))) 0 start [])
    as (dealt & Hloop & _); [unfold start, len; lia|lia|].
  exists dealt. exact Hloop.
Qed.

(** C4: for [num_decks >= 1], [simulate_shoe] returns the hands dealt from
    the successive cursors starting at the burn offset, numbered from 1;
    it stops at the first point where the hand cap is reached or fewer than
    six cards remain, and not before.  In particular the result is empty,
    and no error is raised, when the burn count is at least the shoe length
    or leaves fewer than six cards. *)
Theorem simulate_shoe_stopping
    (shoe_id num_decks burn_cards : Z) (max_hands rng_seed : option Z) (w : world) :
  1 <= num_decks ->
  let shoe := fst (build_shoe num_decks (fst (Random rng_seed w))) in
  let start := Z.min (len shoe) (Z.max 0 burn_cards) in
  exists results,
    fst (simulate_shoe shoe_id num_decks burn_cards max_hands rng_seed w)
    = Ok results /\
    stops shoe max_hands (List.length results)
      (cursor_after shoe start (List.length results)) /\
    (forall k, (k < List.length results)%nat ->
       ~ stops shoe max_hands k (cursor_after shoe start k)) /\
    (forall k, (k < List.length results)%nat ->
       exists res,
         play_hand shoe (cursor_after shoe start k)
         = Ok (res, cursor_after shoe start (S k)) /\
         nth_error results k = Some (stamp res shoe_id (Z.of_nat k + 1))) /\
    (len shoe <= burn_cards \/ len shoe - Z.max 0 burn_cards < 6 ->
     results = []).
Proof.
  intros Hdecks shoe start.
  rewrite simulate_shoe_eq. cbn [fst]. fold shoe.
  replace (0 + Z.max 0 burn_cards) with (Z.max 0 burn_cards) by lia. fold start.
  assert (Hstart : 0 <= start).
  { unfold start, len. lia. }
  destruct (deal_loop_trace shoe shoe_id max_hands
              (S (Z.to_nat (len shoe - start))) 0 start [] Hstart)
    as (dealt & Hloop & Hstop & Hgo & Hhands); [lia|].
  exists dealt. cbn in Hloop. split; [exact Hloop|].
  split; [exact Hstop|]. split; [exact Hgo|]. split; [exact Hhands|].
  intros Hburn. destruct dealt as [|r dealt]; [reflexivity|exfalso].
  apply (Hgo 0%nat); [cbn; lia|].
  right. cbn. unfold start. lia.
Qed.

(** C5: [deal_card] raises the out-of-cards error exactly when the cursor
    is at or past the end of the shoe, and a card it returns is a card of
    the shoe; a hand takes at most six cards; so with six cards under a
    non-negative cursor [play_hand] returns, and [simulate_shoe], which
    calls it only under that guard, never raises. *)
Theorem out_of_cards_unreachable :
  (forall shoe pos,
     deal_card shoe pos = Err shoe_out_of_cards <-> len shoe <= pos) /\
  (forall shoe pos c pos',
     deal_card shoe pos = Ok (c, pos') ->
     pos' = pos + 1 /\
     exists i, (i < List.length shoe)%nat /\ nth_error shoe i = Some c) /\
  (forall shoe pos res pos',
     play_hand shoe pos = Ok (res, pos') ->
     pos' - pos = len (player_cards res) + len (banker_cards res) /\
     pos' - pos <= 6) /\
  (forall shoe pos,
     0 <= pos -> pos + 6 <= len shoe ->
     exists res pos', play_hand shoe pos = Ok (res, pos')) /\
  (forall shoe_id num_decks burn_cards max_hands rng_seed w,
     exists results,
       fst (simulate_shoe shoe_id num_decks burn_cards max_hands rng_seed w)
       = Ok results).
Proof.
  split; [|split; [|split; [|split]]].
  - intros shoe pos. unfold deal_card. rewrite Z.geb_leb. unfold py_getitem.
    destruct (Z.leb_spec (len shoe) pos) as [Hout|Hin].
    + split; [lia|reflexivity].
    + split; [|lia].
      destruct (_ || _); [discriminate|].
      destruct (nth_error _ _); discriminate.
  - intros shoe pos c pos' Hdeal.
    apply deal_card_inv in Hdeal as (Hpos' & _ & Hget). split; [exact Hpos'|].
    unfold py_getitem in Hget.
    destruct (_ || _); [discriminate|].
    destruct (nth_error shoe _) as [c'|] eqn:Hnth; [|discriminate].
    injection Hget as <-. eexists. split; [|exact Hnth].
    apply nth_error_Some. congruence.
  - intros shoe pos res pos' Hplay.
    pose proof (play_hand_shape _ _ _ _ Hplay). lia.
  - apply play_hand_succeeds.
  - apply simulate_shoe_returns.
Qed.

(** C10: a negative burn count gives the same run as a burn count of 0. *)
Theorem simulate_shoe_negative_burn
    (shoe_id num_decks burn_cards : Z) (max_hands rng_seed : option Z) (w : world) :
  burn_cards < 0 ->
  simulate_shoe shoe_id num_decks burn_cards max_hands rng_seed w
  = simulate_shoe shoe_id num_decks 0 max_hands rng_seed w.
Proof.
  intros Hneg. rewrite !simulate_shoe_eq.
  replace (Z.max 0 burn_cards) with (Z.max 0 0) by lia.
  reflexivity.
Qed.

(** ** Batch runner *)

Lemma simulate_shoe_seeded shoe_id num_decks burn_cards max_hands seed w w' :
  snd (simulate_shoe shoe_id num_decks burn_cards max_hands (Some seed) w) = w /\
  fst (simulate_shoe shoe_id num_decks burn_cards max_hands (Some seed) w)
  = fst (simulate_shoe shoe_id num_decks burn_cards max_hands (Some seed) w').
Proof. rewrite !simulate_shoe_eq. split; reflexivity. Qed.

Lemma shoes_loop_batches num_decks burn_cards max_hands w0 :
  forall ids g all_results w,
    exists batches,
      shoes_loop ids num_decks burn_cards max_hands g all_results w
      = (Ok (all_results ++ List.concat batches), w) /\
      Forall2 (fun '(shoe_id, seed) batch =>
                 fst (simulate_shoe shoe_id num_decks burn_cards max_hands
                        (Some seed) w0) = Ok batch)
        (child_seeds ids g) batches.
Proof.
  induction ids as [|shoe_id ids IH]; intros g all_results w; cbn [shoes_loop child_seeds].
  - exists []. cbn. rewrite app_nil_r. split; [reflexivity|constructor].
  - destruct (randint 0 (10 ^ 9) g) as [seed g'].
    destruct (simulate_shoe_returns shoe_id num_decks burn_cards max_hands (Some seed) w)
      as (batch & Hbatch).
    destruct (simulate_shoe_seeded shoe_id num_decks burn_cards max_hands seed w w0)
      as (Hw & Hsame).
    destruct (simulate_shoe shoe_id num_decks burn_cards max_hands (Some seed) w)
      as [r w'].
    cbn [fst snd] in Hbatch, Hw, Hsame. subst r w'.
    destruct (IH g' (all_results ++ batch) w) as (batches & Hloop & Hall).
    exists (batch :: batches). split.
    + rewrite Hloop. cbn [List.concat]. now rewrite app_assoc.
    + constructor; [symmetry; exact Hsame|exact Hall].
Qed.

(** C9: with a master seed, the hands [simulate_many_shoes] returns do not
    depend on anything but its arguments: they are the concatenation, in
    shoe order, of the runs of [simulate_shoe] on the child seeds drawn one
    per shoe from the generator seeded by the master seed. *)
Theorem simulate_many_shoes_deterministic
    (num_shoes num_decks burn_cards : Z) (max_hands : option Z)
    (master_seed : Z) (w1 w2 : world) :
  fst (simulate_many_shoes num_shoes num_decks burn_cards max_hands
         (Some master_seed) w1)
  = fst (simulate_many_shoes num_shoes num_decks burn_cards max_hands
           (Some master_seed) w2) /\
  exists batches,
    fst (simulate_many_shoes num_shoes num_decks burn_cards max_hands
           (Some master_seed) w1) = Ok (List.concat batches) /\
    Forall2 (fun '(shoe_id, seed) batch =>
               fst (simulate_shoe shoe_id num_decks burn_cards max_hands
                      (Some seed) w1) = Ok batch)
      (child_seeds (range 1 (num_shoes + 1)) (seed_int master_seed)) batches.
Proof.
  unfold simulate_many_shoes. cbn [Random].
  destruct (shoes_loop_batches num_decks burn_cards max_hands w1
              (range 1 (num_shoes + 1)) (seed_int master_seed) [] w1)
    as (batches1 & Hrun1 & Hall1).
  destruct (shoes_loop_batches num_decks burn_cards max_hands w1
              (range 1 (num_shoes + 1)) (seed_int master_seed) [] w2)
    as (batches2 & Hrun2 & Hall2).
  assert (Heq : batches1 = batches2).
  { clear Hrun1 Hrun2. revert batches2 Hall2.
    induction Hall1 as [|[shoe_id seed] batch ids bs Hb _ IH];
      intros batches2 Hall2; inversion Hall2; subst; [reflexivity|].
    f_equal; [congruence|]. now apply IH. }
  subst batches2. rewrite Hrun1, Hrun2. cbn [fst app].
  split; [reflexivity|].
  exists batches1. split; [reflexivity|exact Hall1].
Qed.

(** ** Configuration *)

Lemma simulate_shoe_bad_config shoe_id num_decks burn_cards max_hands rng_seed w :
  num_decks <= 0 \/ (exists cap, max_hands = Some cap /\ cap < 0) ->
  fst (simulate_shoe shoe_id num_decks burn_cards max_hands rng_seed w) = Ok [].
Proof.
  intros Hbad. rewrite simulate_shoe_eq. cbn [fst].
  rewrite deal_loop_step.
  replace (loop_guard _ _ _ _) with false; [reflexivity|].
  symmetry. unfold loop_guard. apply andb_false_iff.
  destruct Hbad as [Hdecks|(cap & -> & Hcap)].
  - right. rewrite build_shoe_len. apply Z.leb_gt. lia.
  - left. apply Z.leb_gt. lia.
Qed.

Lemma shoes_loop_bad_config num_decks burn_cards max_hands :
  num_decks <= 0 \/ (exists cap, max_hands = Some cap /\ cap < 0) ->
  forall ids g w,
    fst (shoes_loop ids num_decks burn_cards max_hands g [] w) = Ok [].
Proof.
  intros Hbad. induction ids as [|shoe_id ids IH]; intros g w; cbn [shoes_loop].
  - reflexivity.
  - destruct (randint 0 (10 ^ 9) g) as [seed g'].
    pose proof (simulate_shoe_bad_config shoe_id num_decks burn_cards max_hands
                  (Some seed) w Hbad) as Hshoe.
    destruct (simulate_shoe shoe_id num_decks burn_cards max_hands (Some seed) w)
      as [r w'].
    cbn [fst] in Hshoe. subst r. cbn [app]. apply IH.
Qed.

(** C6, as the code has it: a non-positive deck count or a negative hand
    cap is not rejected; [main] hands the parsed values to
    [simulate_many_shoes], which runs every shoe, deals no hand, and
    returns the empty sequence without raising. *)
Theorem bad_configuration_runs_empty :
  (forall num_shoes num_decks burn_cards max_hands rng_seed w,
     num_decks <= 0 \/ (exists cap, max_hands = Some cap /\ cap < 0) ->
     fst (simulate_many_shoes num_shoes num_decks burn_cards max_hands rng_seed w)
     = Ok []) /\
  (forall args w,
     args_decks args <= 0 \/ args_max_hands args < 0 ->
     fst (main args w) = Ok []).
Proof.
  assert (Hbatch : forall num_shoes num_decks burn_cards max_hands rng_seed w,
     num_decks <= 0 \/ (exists cap, max_hands = Some cap /\ cap < 0) ->
     fst (simulate_many_shoes num_shoes num_decks burn_cards max_hands rng_seed w)
     = Ok []).
  { intros num_shoes num_decks burn_cards max_hands rng_seed w Hbad.
    unfold simulate_many_shoes. destruct (Random rng_seed w) as [g w'].
    now apply shoes_loop_bad_config. }
  split; [exact Hbatch|].
  intros args w Hbad. unfold main. apply Hbatch.
  destruct Hbad as [Hdecks|Hcap]; [left; exact Hdecks|right].
  exists (args_max_hands args). split; [reflexivity|exact Hcap].
Qed.

End Simulator.

(** The composition of a two-deck shoe built by the concrete generator. *)
Lemma build_shoe_composition_witness :
  len (fst (build_shoe (R := Lcg.random) 2 5)) = 104 /\
  Z.of_nat (count_occ Z.eq_dec (fst (build_shoe (R := Lcg.random) 2 5)) 13) = 8.
Proof.
  destruct (build_shoe_composition (R := Lcg.random) 2 5 ltac:(lia)) as [Hlen Hcount].
  split; [exact Hlen|].
  apply Hcount. lia.
Defined.

(** A full burn of a one-deck shoe leaves nothing to deal. *)
Lemma simulate_shoe_stopping_witness :
  fst (simulate_shoe (R := Lcg.random) 1 1 52 None (Some 7) 0) = Ok [].
Proof.
  destruct (simulate_shoe_stopping (R := Lcg.random) 1 1 52 None (Some 7) 0)
    as (results & Hrun & _ & _ & _ & Hempty).
  - lia.
  - rewrite Hrun. f_equal. apply Hempty. left. vm_compute. discriminate.
Defined.

Lemma out_of_cards_unreachable_witness :
  deal_card [1; 2] 2 = Err shoe_out_of_cards /\
  exists res pos', play_hand [3; 1; 2; 3; 6; 10] 0 = Ok (res, pos').
Proof.
  destruct (out_of_cards_unreachable (R := Lcg.random))
    as (Hdeal & _ & _ & Hplay & _).
  split.
  - apply Hdeal. vm_compute. discriminate.
  - apply Hplay; vm_compute; discriminate.
Defined.

Lemma simulate_shoe_negative_burn_witness :
  simulate_shoe (R := Lcg.random) 1 1 (-5) None (Some 7) 0
  = simulate_shoe (R := Lcg.random) 1 1 0 None (Some 7) 0.
Proof.
  apply (simulate_shoe_negative_burn (R := Lcg.random)). lia.
Defined.

(** With a master seed the batch does not read the system's entropy; without
    one it does, and two runs may differ. *)
Example unseeded_batches_differ :
  fst (simulate_many_shoes (R := Lcg.random) 1 1 0 (Some 1) None 0)
  <> fst (simulate_many_shoes (R := Lcg.random) 1 1 0 (Some 1) None 1).
Proof. vm_compute. discriminate. Qed.

(** C6 fails on the code: zero decks, and a hand cap of -1, both run to
    completion and return no hands instead of being rejected. *)
Lemma bad_configuration_not_rejected :
  fst (main (R := Lcg.random) (mkArgs 2 0 0 40 (Some 1) "baccarat_shoes.csv") 0)
  = Ok [] /\
  fst (main (R := Lcg.random) (mkArgs 2 8 0 (-1) (Some 1) "baccarat_shoes.csv") 0)
  = Ok [].
Proof. split; vm_compute; reflexivity. Qed.

Lemma bad_configuration_runs_empty_witness :
  fst (main (R := Lcg.random) (mkArgs 3 (-2) 10 40 None "baccarat_shoes.csv") 5)
  = Ok [].
Proof.
  apply (bad_configuration_runs_empty (R := Lcg.random)).
  left. cbn. lia.
Defined.

(** * Further properties of the engine *)

(** ** Hand evaluator *)

Lemma points_app a b : points (a ++ b) = points a + points b.
Proof. induction a as [|c a IH]; simpl; lia. Qed.

Lemma hand_total_points cards : hand_total cards = points cards mod 10.
Proof. unfold hand_total. now rewrite sum_points. Qed.

(** X1: The total of two groups of cards put together is the sum of their
    totals modulo 10: recomputing a total after a draw equals adding the
    drawn card's value to the old total. *)
Theorem hand_total_app (a b : list Z) :
  hand_total (a ++ b) = (hand_total a + hand_total b) mod 10.
Proof.
  rewrite !hand_total_points, points_app. apply Z.add_mod. lia.
Qed.

(** X2: The total of a hand does not depend on the order of its cards. *)
Theorem hand_total_permutation (a b : list Z) :
  Permutation a b -> hand_total a = hand_total b.
Proof.
  intros Hperm. rewrite !hand_total_points. f_equal.
  induction Hperm; simpl; lia.
Qed.

Lemma hand_total_permutation_witness :
  hand_total [7; 12; 5] = hand_total [5; 7; 12].
Proof.
  apply hand_total_permutation.
  apply perm_trans with (l' := [7; 5; 12]).
  - apply perm_skip. apply perm_swap.
  - apply perm_swap.
Defined.

(** ** Hand dealer: cursors and errors *)

(** X3: [deal_card] only guards the upper end: a negative cursor that Python
    accepts as a subscript returns a card counted from the end of the
    shoe, and one below [-len shoe] raises the subscript's own error. *)
Theorem deal_card_negative_cursor (shoe : list Z) (pos : Z) :
  pos < 0 ->
  (- len shoe <= pos ->
   deal_card shoe pos = Ok (card_at shoe (pos + len shoe), pos + 1)) /\
  (pos < - len shoe ->
   deal_card shoe pos = Err list_index_out_of_range).
Proof.
  intros Hneg. unfold deal_card, py_getitem. rewrite Z.geb_leb.
  assert (Hlen : 0 <= len shoe) by (unfold len; lia).
  destruct (Z.leb_spec (len shoe) pos); [lia|].
  destruct (Z.ltb_spec pos 0); [|lia].
  split; intros Hpos.
  - destruct (Z.ltb_spec (pos + len shoe) 0); [lia|].
    destruct (Z.leb_spec (len shoe) (pos + len shoe)); [lia|]. cbn.
    unfold card_at.
    destruct (nth_error shoe (Z.to_nat (pos + len shoe))) as [c|] eqn:E.
    + now rewrite (nth_error_nth _ _ _ E).
    + apply nth_error_None in E. unfold len in *. lia.
  - destruct (Z.ltb_spec (pos + len shoe) 0); [|lia]. reflexivity.
Qed.

Lemma deal_card_negative_cursor_witness :
  deal_card [1; 2; 3] (-1) = Ok (3, 0) /\
  deal_card [1; 2; 3] (-4) = Err list_index_out_of_range.
Proof.
  split.
  - apply (deal_card_negative_cursor [1; 2; 3] (-1)); vm_compute; congruence.
  - apply (deal_card_negative_cursor [1; 2; 3] (-4)); vm_compute; congruence.
Defined.

Lemma deal_card_nonneg shoe pos :
  0 <= pos ->
  (pos < len shoe /\ deal_card shoe pos = Ok (card_at shoe pos, pos + 1)) \/
  (len shoe <= pos /\ deal_card shoe pos = Err shoe_out_of_cards).
Proof.
  intros Hpos. destruct (Z.lt_ge_cases pos (len shoe)) as [Hin|Hout].
  - left. split; [exact Hin|]. apply deal_card_in_range. lia.
  - right. split; [exact Hout|]. unfold deal_card. rewrite Z.geb_leb.
    destruct (Z.leb_spec (len shoe) pos); [reflexivity|lia].
Qed.

(** Case analysis on the next [deal_card] call of the goal at a cursor
    known to be non-negative: the shoe holds a card there, or the
    out-of-cards error is raised. *)
Ltac deal_or_fail :=
  match goal with
  | |- context [deal_card ?shoe ?q] =>
      let Hin := fresh "Hin" in
      let E := fresh "E" in
      destruct (deal_card_nonneg shoe q) as [[Hin E]|[Hin E]];
      [lia | | ]; rewrite E; cbn [bind app]
  end.

(** X4: From a non-negative cursor the only error [play_hand] can raise is the
    out-of-cards error; it does so whenever fewer than four cards are left,
    and only when fewer than six are. *)
Theorem play_hand_errors (shoe : list Z) (pos : Z) :
  0 <= pos ->
  (len shoe < pos + 4 -> play_hand shoe pos = Err shoe_out_of_cards) /\
  (forall e, play_hand shoe pos = Err e ->
     e = shoe_out_of_cards /\ len shoe < pos + 6).
Proof.
  intros Hpos. split.
  - intros Hshort. unfold play_hand.
    deal_or_fail; [|reflexivity].
    deal_or_fail; [|reflexivity].
    deal_or_fail; [|reflexivity].
    deal_or_fail; [lia|reflexivity].
  - intros e Herr.
    assert (Hshort : len shoe < pos + 6).
    { destruct (Z.lt_ge_cases (len shoe) (pos + 6)) as [H|H]; [exact H|].
      destruct (play_hand_succeeds shoe pos Hpos H) as (res & pos' & Hok).
      congruence. }
    split; [|exact Hshort].
    revert Herr. unfold play_hand.
    deal_or_fail; [|congruence].
    deal_or_fail; [|congruence].
    deal_or_fail; [|congruence].
    deal_or_fail; [|congruence].
    destruct (_ || _); [discriminate|].
    destruct (_ <=? 5).
    + deal_or_fail; [|congruence].
      rewrite banker_reacts_rule. destruct (banker_rule _ _).
      * deal_or_fail; [discriminate|congruence].
      * discriminate.
    + cbn [bind]. destruct (_ <=? 5).
      * deal_or_fail; [discriminate|congruence].
      * discriminate.
Qed.

Lemma play_hand_errors_witness :
  play_hand [3; 1; 2] 0 = Err shoe_out_of_cards.
Proof.
  apply (play_hand_errors [3; 1; 2] 0); vm_compute; congruence.
Defined.


(** ** Hand dealer: the cards of a hand *)

Lemma skipn_nth_error {A : Type} (l : list A) : forall n x,
  nth_error l n = Some x -> skipn n l = x :: skipn (S n) l.
Proof.
  induction l as [|y l IH]; intros [|n] x Hn; try discriminate.
  - injection Hn as <-. reflexivity.
  - cbn [nth_error] in Hn. apply IH in Hn. exact Hn.
Qed.

Lemma firstn_plus {A : Type} (n m : nat) : forall l : list A,
  firstn (n + m) l = firstn n l ++ firstn m (skipn n l).
Proof.
  induction n as [|n IH]; intros [|x l]; cbn; try reflexivity.
  - now rewrite firstn_nil.
  - now rewrite IH.
Qed.

Lemma slice_nil shoe a : slice shoe a a = [].
Proof. unfold slice. now rewrite Z.sub_diag. Qed.

Lemma slice_cons shoe a b :
  0 <= a < len shoe -> a < b ->
  slice shoe a b = card_at shoe a :: slice shoe (a + 1) b.
Proof.
  intros Ha Hb. unfold slice, card_at.
  destruct (nth_error shoe (Z.to_nat a)) as [c|] eqn:E.
  - rewrite (skipn_nth_error _ _ _ E), (nth_error_nth _ _ _ E).
    replace (Z.to_nat (b - a)) with (S (Z.to_nat (b - (a + 1)))) by lia.
    replace (Z.to_nat (a + 1)) with (S (Z.to_nat a)) by lia.
    reflexivity.
  - apply nth_error_None in E. unfold len in Ha. lia.
Qed.

Lemma slice_app shoe a b c :
  0 <= a <= b -> b <= c ->
  slice shoe a c = slice shoe a b ++ slice shoe b c.
Proof.
  intros Hab Hbc. unfold slice.
  replace (Z.to_nat (c - a)) with (Z.to_nat (b - a) + Z.to_nat (c - b))%nat by lia.
  rewrite firstn_plus, skipn_skipn.
  replace (Z.to_nat (b - a) + Z.to_nat a)%nat with (Z.to_nat b) by lia.
  reflexivity.
Qed.

Lemma py_getitem_In l i c : py_getitem l i = Ok c -> In c l.
Proof.
  unfold py_getitem. destruct (_ || _); [discriminate|].
  destruct (nth_error l _) as [c'|] eqn:E; [|discriminate].
  intros [= <-]. eapply nth_error_In. exact E.
Qed.

(** Turn what is known of the cards dealt so far into their positions in
    the shoe. *)
Ltac locate_cards :=
  repeat match goal with
  | H : py_getitem _ _ = Ok _ |- _ => apply py_getitem_inv in H; [|lia]
  end; subst.

Lemma play_hand_slice shoe pos res pos' :
  0 <= pos ->
  play_hand shoe pos = Ok (res, pos') ->
  deal_order (player_cards res) (banker_cards res) = slice shoe pos pos'.
Proof.
  intros Hpos. unfold play_hand. do 4 deal_next. cbn [app].
  destruct (_ || _).
  - cbn [bind]. intros [= <- <-]. locate_cards. cbn.
    rewrite !slice_cons by lia. now rewrite slice_nil.
  - destruct (_ <=? 5).
    + deal_next. rewrite banker_reacts_rule.
      destruct (banker_rule _ _); [deal_next|]; cbn [bind];
        intros [= <- <-]; locate_cards; cbn;
        rewrite !slice_cons by lia; now rewrite slice_nil.
    + cbn [bind]. destruct (_ <=? 5); [deal_next|]; cbn [bind];
        intros [= <- <-]; locate_cards; cbn;
        rewrite !slice_cons by lia; now rewrite slice_nil.
Qed.

(** X5: A hand dealt from a non-negative cursor takes consecutive cards: the
    cards it holds, in dealing order, are exactly the slice of the shoe
    between the old and the new cursor. *)
Theorem play_hand_consumes_slice
    (shoe : list Z) (pos : Z) (res : HandResult) (pos' : Z) :
  0 <= pos ->
  play_hand shoe pos = Ok (res, pos') ->
  deal_order (player_cards res) (banker_cards res) = slice shoe pos pos' /\
  len (slice shoe pos pos') = pos' - pos.
Proof.
  intros Hpos Hplay. split; [now apply play_hand_slice|].
  pose proof (play_hand_shape _ _ _ _ Hplay) as (_ & _ & _ & _ & _ & _ & _ & _ & Hend).
  pose proof (play_hand_advances _ _ _ _ Hplay) as Hadv.
  unfold slice, len in *. rewrite length_firstn, length_skipn. lia.
Qed.

Lemma play_hand_consumes_slice_witness :
  deal_order [3; 2; 6] [1; 3; 10] = slice [3; 1; 2; 3; 6; 10; 4; 4] 0 6 /\
  len (slice [3; 1; 2; 3; 6; 10; 4; 4] 0 6) = 6 - 0.
Proof.
  apply (play_hand_consumes_slice [3; 1; 2; 3; 6; 10; 4; 4] 0
           (mkHandResult (-1) (-1) [3; 2; 6] [1; 3; 10] 1 4 "B" false) 6).
  - lia.
  - reflexivity.
Defined.

(** X6: Every hand [play_hand] returns is well formed: the identifiers are the
    placeholders -1, both totals lie in [0, 9], the winner is one of "P",
    "B", "T", each side holds two or three cards, all of them cards of the
    shoe, and the cursor has moved by 4, 5 or 6 without passing the end. *)
Theorem play_hand_well_formed
    (shoe : list Z) (pos : Z) (res : HandResult) (pos' : Z) :
  play_hand shoe pos = Ok (res, pos') ->
  shoe_id res = -1 /\ hand_number res = -1 /\
  0 <= player_total res <= 9 /\ 0 <= banker_total res <= 9 /\
  In (winner res) ["P"; "B"; "T"]%string /\
  2 <= len (player_cards res) <= 3 /\
  2 <= len (banker_cards res) <= 3 /\
  (forall c, In c (player_cards res ++ banker_cards res) -> In c shoe) /\
  4 <= pos' - pos <= 6 /\ pos' <= len shoe.
Proof.
  intros Hplay.
  pose proof (play_hand_shape _ _ _ _ Hplay)
    as (Hid & Hnum & Hp & Hb & Hw & Hlp & Hlb & Hpos' & Hend).
  repeat split; try assumption; try lia.
  - rewrite Hp. apply hand_total_range.
  - rewrite Hp. apply hand_total_range.
  - rewrite Hb. apply hand_total_range.
  - rewrite Hb. apply hand_total_range.
  - rewrite Hw. unfold decide_winner.
    destruct (_ >? _); [cbn; tauto|]. destruct (_ >? _); cbn; tauto.
  - clear Hid Hnum Hp Hb Hw Hlp Hlb Hpos' Hend. revert Hplay.
    unfold play_hand. do 4 deal_next. cbn [app].
    repeat match goal with
    | H : py_getitem _ _ = Ok _ |- _ => apply py_getitem_In in H
    end.
    destruct (_ || _).
    + cbn [bind]. intros [= <- <-]. cbn. intuition (subst; assumption).
    + destruct (_ <=? 5).
      * deal_next. rewrite banker_reacts_rule.
        destruct (banker_rule _ _); [deal_next|]; cbn [bind];
          intros [= <- <-];
          repeat match goal with
          | H : py_getitem _ _ = Ok _ |- _ => apply py_getitem_In in H
          end; cbn; intuition (subst; assumption).
      * cbn [bind]. destruct (_ <=? 5); [deal_next|]; cbn [bind];
          intros [= <- <-];
          repeat match goal with
          | H : py_getitem _ _ = Ok _ |- _ => apply py_getitem_In in H
          end; cbn; intuition (subst; assumption).
Qed.

Lemma play_hand_well_formed_witness :
  In "T"%string ["P"; "B"; "T"]%string /\ 4 <= 4 - 0 <= 6.
Proof.
  pose proof (play_hand_well_formed [8; 8; 1; 1] 0
                (mkHandResult (-1) (-1) [8; 1] [8; 1] 9 9 "T" true) 4
                eq_refl) as (_ & _ & _ & _ & Hw & _ & _ & _ & Hmove & _).
  split; [exact Hw|exact Hmove].
Defined.

(** ** The dealing loop as a run of hands *)

Lemma deal_loop_run shoe shoe_id max_hands :
  forall (bound j : nat) (pos : Z) (results : list HandResult),
    0 <= pos -> (Z.to_nat (len shoe - pos) < bound)%nat ->
    exists dealt final,
      deal_loop shoe shoe_id max_hands (Z.of_nat j + 1) pos results
      = Ok (results ++ dealt) /\
      run shoe shoe_id max_hands j pos dealt final.
Proof.
  induction bound as [|bound IH]; intros j pos results Hpos Hbound; [lia|].
  rewrite deal_loop_step.
  destruct (loop_guard shoe max_hands (Z.of_nat j + 1) pos) eqn:Hguard.
  - assert (Hgo : ~ stops shoe max_hands j pos).
    { rewrite <- loop_guard_stops, Hguard. discriminate. }
    assert (Hroom : pos + 6 <= len shoe).
    { unfold stops in Hgo. lia. }
    destruct (play_hand_succeeds shoe pos Hpos Hroom) as (res & pos' & Hplay).
    rewrite Hplay.
    pose proof (play_hand_advances _ _ _ _ Hplay) as Hadv.
    replace (Z.of_nat j + 1 + 1) with (Z.of_nat (S j) + 1) by lia.
    destruct (IH (S j) pos'
                (results ++ [set_hand_number (set_shoe_id res shoe_id) (Z.of_nat j + 1)]))
      as (dealt & final & Hloop & Hrun); [lia|lia|].
    exists (stamp res shoe_id (Z.of_nat j + 1) :: dealt), final. split.
    + rewrite Hloop, <- app_assoc. reflexivity.
    + now apply run_step with (pos' := pos').
  - exists [], pos. rewrite app_nil_r. split; [reflexivity|].
    apply run_stop. now apply loop_guard_stops.
Qed.

Lemma run_functional shoe shoe_id max_hands j pos d1 f1 :
  run shoe shoe_id max_hands j pos d1 f1 ->
  forall d2 f2, run shoe shoe_id max_hands j pos d2 f2 -> d1 = d2 /\ f1 = f2.
Proof.
  induction 1 as [j pos Hstop|j pos res pos' rest final Hgo Hplay Hrest IH];
    intros d2 f2 Hrun2; inversion Hrun2; subst.
  - split; reflexivity.
  - contradiction.
  - contradiction.
  - match goal with
    | H : play_hand shoe pos = Ok _ |- _ =>
        rewrite Hplay in H; injection H as <- <-
    end.
    match goal with
    | H : run _ _ _ (S j) pos' _ _ |- _ => destruct (IH _ _ H) as [<- <-]
    end.
    split; reflexivity.
Qed.

Lemma run_cursor shoe shoe_id max_hands j pos dealt final :
  run shoe shoe_id max_hands j pos dealt final ->
  pos + 4 * len dealt <= final <= pos + 6 * len dealt /\
  (dealt <> [] -> final <= len shoe).
Proof.
  induction 1 as [j pos Hstop|j pos res pos' rest final Hgo Hplay Hrest IH].
  - unfold len. cbn. split; [lia|congruence].
  - pose proof (play_hand_shape _ _ _ _ Hplay) as (_ & _ & _ & _ & _ & _ & _ & _ & Hend).
    pose proof (play_hand_advances _ _ _ _ Hplay) as Hadv.
    destruct IH as [Hbounds Hfinal].
    unfold len in *. cbn [List.length]. split; [lia|]. intros _.
    destruct rest as [|r rest].
    + inversion Hrest; subst. exact Hend.
    + apply Hfinal. discriminate.
Qed.

Lemma run_stops shoe shoe_id max_hands j pos dealt final :
  run shoe shoe_id max_hands j pos dealt final ->
  stops shoe max_hands (j + List.length dealt) final.
Proof.
  induction 1 as [j pos Hstop|j pos res pos' rest final Hgo Hplay Hrest IH].
  - cbn. now rewrite Nat.add_0_r.
  - cbn [List.length].
    now replace (j + S (List.length rest))%nat with (S j + List.length rest)%nat by lia.
Qed.

Lemma run_under_cap shoe shoe_id cap j pos dealt final :
  run shoe shoe_id (Some cap) j pos dealt final ->
  dealt <> [] -> Z.of_nat (j + List.length dealt) <= cap.
Proof.
  induction 1 as [j pos Hstop|j pos res pos' rest final Hgo Hplay Hrest IH];
    intros Hne; [congruence|].
  destruct rest as [|r rest].
  - cbn [List.length]. unfold stops in Hgo.
    assert (~ cap <= Z.of_nat j).
    { intros Hc. apply Hgo. left. exists cap. split; [reflexivity|exact Hc]. }
    lia.
  - cbn [List.length] in *.
    replace (j + S (S (List.length rest)))%nat
      with (S j + S (List.length rest))%nat by lia.
    apply IH. discriminate.
Qed.

Lemma run_numbering shoe sid max_hands j pos dealt final :
  run shoe sid max_hands j pos dealt final ->
  map hand_number dealt = numbers_from j (List.length dealt) /\
  Forall (fun r => shoe_id r = sid) dealt.
Proof.
  induction 1 as [j pos Hstop|j pos res pos' rest final Hgo Hplay Hrest IH].
  - split; [reflexivity|constructor].
  - destruct IH as [Hnum Hid]. split.
    + unfold numbers_from in *. cbn. now rewrite Hnum.
    + constructor; [reflexivity|exact Hid].
Qed.

Lemma run_cards shoe shoe_id max_hands j pos dealt final :
  run shoe shoe_id max_hands j pos dealt final ->
  0 <= pos ->
  flat_map hand_cards dealt = slice shoe pos final.
Proof.
  induction 1 as [j pos Hstop|j pos res pos' rest final Hgo Hplay Hrest IH];
    intros Hpos.
  - cbn. now rewrite slice_nil.
  - pose proof (play_hand_advances _ _ _ _ Hplay) as Hadv.
    pose proof (run_cursor _ _ _ _ _ _ _ Hrest) as [Hcur _].
    assert (0 <= len rest) by (unfold len; lia).
    cbn [flat_map]. rewrite IH by lia.
    rewrite (slice_app shoe pos pos' final) by lia.
    f_equal. unfold hand_cards, stamp. cbn.
    now apply play_hand_slice.
Qed.

Lemma run_cap shoe shoe_id cap j pos dealt final :
  run shoe shoe_id None j pos dealt final ->
  exists final',
    run shoe shoe_id (Some cap) j pos
      (firstn (Z.to_nat (cap - Z.of_nat j)) dealt) final'.
Proof.
  induction 1 as [j pos Hstop|j pos res pos' rest final Hgo Hplay Hrest IH].
  - exists pos. rewrite firstn_nil. apply run_stop.
    destruct Hstop as [(c & [=] & _)|Hshort]. right. exact Hshort.
  - destruct (Z.le_gt_cases cap (Z.of_nat j)) as [Hcap|Hcap].
    + exists pos. replace (Z.to_nat (cap - Z.of_nat j)) with 0%nat by lia.
      apply run_stop. left. exists cap. split; [reflexivity|exact Hcap].
    + destruct IH as (final' & IH). exists final'.
      replace (Z.to_nat (cap - Z.of_nat j))
        with (S (Z.to_nat (cap - Z.of_nat (S j)))) by lia.
      cbn [firstn]. apply run_step with (pos' := pos'); try assumption.
      intros [(c & [= <-] & Hc)|Hshort]; [lia|].
      apply Hgo. right. exact Hshort.
Qed.

Lemma run_reaches_cap shoe shoe_id cap start results final :
  run shoe shoe_id (Some cap) 0 start results final ->
  0 <= cap ->
  6 * cap <= len shoe - start ->
  len results = cap.
Proof.
  intros Hrun Hcap Hroom.
  pose proof (run_cursor _ _ _ _ _ _ _ Hrun) as [Hcur _].
  pose proof (run_stops _ _ _ _ _ _ _ Hrun) as Hstop.
  assert (Hupper : len results <= cap).
  { destruct results as [|r results]; [unfold len; cbn; lia|].
    pose proof (run_under_cap _ _ _ _ _ _ _ Hrun ltac:(discriminate)) as H.
    unfold len. cbn [plus] in H. lia. }
  destruct Hstop as [(c & [= <-] & Hc)|Hshort].
  - cbn [plus] in Hc. unfold len in *. lia.
  - unfold len in *. lia.
Qed.

Section ShoeRuns.

Context {R : PyRandom}.

Lemma shoe_of_len num_decks rng_seed w :
  len (shoe_of num_decks rng_seed w) = 52 * Z.max 0 num_decks.
Proof. apply build_shoe_len. Qed.

Lemma burn_offset_range shoe burn_cards :
  0 <= burn_offset shoe burn_cards <= len shoe.
Proof. unfold burn_offset, len. lia. Qed.

Lemma cards_after_burn_eq num_decks burn_cards rng_seed w :
  len (shoe_of num_decks rng_seed w)
  - burn_offset (shoe_of num_decks rng_seed w) burn_cards
  = cards_after_burn num_decks burn_cards.
Proof. unfold burn_offset, cards_after_burn. now rewrite shoe_of_len. Qed.

Lemma simulate_shoe_run shoe_id num_decks burn_cards max_hands rng_seed w :
  exists results final,
    fst (simulate_shoe shoe_id num_decks burn_cards max_hands rng_seed w)
    = Ok results /\
    run (shoe_of num_decks rng_seed w) shoe_id max_hands 0
      (burn_offset (shoe_of num_decks rng_seed w) burn_cards) results final.
Proof.
  rewrite simulate_shoe_eq. cbn [fst]. fold (shoe_of num_decks rng_seed w).
  set (shoe := shoe_of num_decks rng_seed w).
  replace (Z.min (len shoe) (0 + Z.max 0 burn_cards))
    with (burn_offset shoe burn_cards) by (unfold burn_offset; f_equal; lia).
  pose proof (burn_offset_range shoe burn_cards) as Hstart.
  destruct (deal_loop_run shoe shoe_id max_hands
              (S (Z.to_nat (len shoe - burn_offset shoe burn_cards))) 0
              (burn_offset shoe burn_cards) [])
    as (dealt & final & Hloop & Hrun); [lia|lia|].
  exists dealt, final. split; [exact Hloop|exact Hrun].
Qed.

(** X8: Within one shoe the hands are numbered 1, 2, 3, ... without gap or
    repeat, and all carry the shoe's identifier. *)
Theorem simulate_shoe_numbering
    (sid num_decks burn_cards : Z) (max_hands rng_seed : option Z) (w : world) :
  exists results,
    fst (simulate_shoe sid num_decks burn_cards max_hands rng_seed w)
    = Ok results /\
    map hand_number results = numbers_from 0 (List.length results) /\
    Forall (fun r => shoe_id r = sid) results.
Proof.
  destruct (simulate_shoe_run sid num_decks burn_cards max_hands rng_seed w)
    as (results & final & Hsim & Hrun).
  exists results. split; [exact Hsim|].
  eapply run_numbering. exact Hrun.
Qed.

(** X9: The number [n] of hands of a shoe: each hand takes at least four of
    the cards left after the burn; a cap is never exceeded; and without a
    cap the loop goes on until fewer than six cards are left, so that
    [6 * (n + 1)] exceeds the cards left after the burn. *)
Theorem simulate_shoe_hand_count
    (shoe_id num_decks burn_cards : Z) (max_hands rng_seed : option Z) (w : world) :
  exists results,
    fst (simulate_shoe shoe_id num_decks burn_cards max_hands rng_seed w)
    = Ok results /\
    4 * len results <= cards_after_burn num_decks burn_cards /\
    (forall cap, max_hands = Some cap -> len results <= Z.max 0 cap) /\
    (max_hands = None ->
     cards_after_burn num_decks burn_cards < 6 * (len results + 1)).
Proof.
  destruct (simulate_shoe_run shoe_id num_decks burn_cards max_hands rng_seed w)
    as (results & final & Hsim & Hrun).
  exists results. split; [exact Hsim|].
  pose proof (run_cursor _ _ _ _ _ _ _ Hrun) as [Hcur Hend].
  pose proof (run_stops _ _ _ _ _ _ _ Hrun) as Hstop.
  pose proof (burn_offset_range (shoe_of num_decks rng_seed w) burn_cards) as Hstart.
  rewrite <- (cards_after_burn_eq num_decks burn_cards rng_seed w).
  split; [|split].
  - destruct results as [|r results]; [unfold len at 1; cbn; lia|].
    assert (final <= len (shoe_of num_decks rng_seed w)) by (apply Hend; discriminate).
    lia.
  - intros cap ->. destruct results as [|r results]; [unfold len; cbn; lia|].
    pose proof (run_under_cap _ _ _ _ _ _ _ Hrun) as Hcap.
    unfold len. cbn [plus] in Hcap. specialize (Hcap ltac:(discriminate)). lia.
  - intros ->. destruct Hstop as [(cap & [=] & _)|Hshort].
    cbn [plus] in Hshort. unfold len in *. lia.
Qed.

(** X10: When the cards left after the burn suffice for [cap] worst-case hands,
    a shoe yields exactly [cap] hands. *)
Theorem simulate_shoe_reaches_cap
    (shoe_id num_decks burn_cards cap : Z) (rng_seed : option Z) (w : world) :
  0 <= cap ->
  6 * cap <= cards_after_burn num_decks burn_cards ->
  exists results,
    fst (simulate_shoe shoe_id num_decks burn_cards (Some cap) rng_seed w)
    = Ok results /\
    len results = cap.
Proof.
  intros Hcap Hroom.
  destruct (simulate_shoe_run shoe_id num_decks burn_cards (Some cap) rng_seed w)
    as (results & final & Hsim & Hrun).
  exists results. split; [exact Hsim|].
  apply (run_reaches_cap _ _ _ _ _ _ Hrun Hcap).
  now rewrite cards_after_burn_eq.
Qed.

(** X11: A hand cap only truncates: the capped run of a shoe is the first [cap]
    hands of the uncapped run of the same shoe. *)
Theorem simulate_shoe_cap_truncates
    (shoe_id num_decks burn_cards cap : Z) (rng_seed : option Z) (w : world) :
  exists uncapped,
    fst (simulate_shoe shoe_id num_decks burn_cards None rng_seed w)
    = Ok uncapped /\
    fst (simulate_shoe shoe_id num_decks burn_cards (Some cap) rng_seed w)
    = Ok (firstn (Z.to_nat cap) uncapped).
Proof.
  destruct (simulate_shoe_run shoe_id num_decks burn_cards None rng_seed w)
    as (uncapped & final & Hsim & Hrun).
  destruct (simulate_shoe_run shoe_id num_decks burn_cards (Some cap) rng_seed w)
    as (capped & final' & Hsim' & Hrun').
  exists uncapped. split; [exact Hsim|]. rewrite Hsim'. f_equal.
  destruct (run_cap _ shoe_id cap _ _ _ _ Hrun) as (final'' & Hcut).
  rewrite Z.sub_0_r in Hcut.
  now destruct (run_functional _ _ _ _ _ _ _ Hrun' _ _ Hcut).
Qed.

(** X12: The hands of a shoe use the cards after the burn, each once and in
    order: their cards, hand after hand in dealing order, are a slice of
    the shoe that starts at the burn offset. *)
Theorem simulate_shoe_deals_in_order
    (shoe_id num_decks burn_cards : Z) (max_hands rng_seed : option Z) (w : world) :
  let shoe := shoe_of num_decks rng_seed w in
  exists results final,
    fst (simulate_shoe shoe_id num_decks burn_cards max_hands rng_seed w)
    = Ok results /\
    flat_map hand_cards results = slice shoe (burn_offset shoe burn_cards) final /\
    burn_offset shoe burn_cards <= final <= len shoe.
Proof.
  intros shoe.
  destruct (simulate_shoe_run shoe_id num_decks burn_cards max_hands rng_seed w)
    as (results & final & Hsim & Hrun).
  fold shoe in Hrun.
  pose proof (burn_offset_range shoe burn_cards) as Hstart.
  pose proof (run_cursor _ _ _ _ _ _ _ Hrun) as [Hcur Hend].
  exists results, final. split; [exact Hsim|]. split.
  - eapply run_cards; [exact Hrun|lia].
  - destruct results as [|r results].
    + inversion Hrun; subst. lia.
    + assert (0 <= len (r :: results)) by (unfold len; lia).
      split; [lia|]. apply Hend. discriminate.
Qed.

End ShoeRuns.

Lemma simulate_shoe_reaches_cap_witness :
  exists results,
    fst (simulate_shoe (R := Lcg.random) 1 8 0 (Some 40) (Some 7) 0) = Ok results /\
    len results = 40.
Proof.
  apply (simulate_shoe_reaches_cap (R := Lcg.random) 1 8 0 40 (Some 7) 0).
  - lia.
  - vm_compute. discriminate.
Defined.

(** ** Hands of a shoe *)

Lemma play_hand_natural_flag shoe pos res pos' :
  play_hand shoe pos = Ok (res, pos') ->
  (natural res = true <->
   In (hand_total (firstn 2 (player_cards res))) [8; 9] \/
   In (hand_total (firstn 2 (banker_cards res))) [8; 9]) /\
  (natural res = true ->
   len (player_cards res) = 2 /\ len (banker_cards res) = 2).
Proof.
  unfold play_hand. do 4 deal_next. cbn [app].
  destruct (in_tuple (hand_total [c; c1]) [8; 9]
            || in_tuple (hand_total [c0; c2]) [8; 9]) eqn:Enat.
  - cbn [bind]. intros [= <- <-]. cbn [natural player_cards banker_cards firstn].
    apply orb_true_iff in Enat. rewrite !in_tuple_In in Enat.
    split; [tauto|]. intros _. split; reflexivity.
  - apply orb_false_iff in Enat. rewrite <- !not_true_iff_false in Enat.
    rewrite !in_tuple_In in Enat.
    destruct (hand_total [c; c1] <=? 5).
    + deal_next. rewrite banker_reacts_rule.
      destruct (banker_rule _ _); [deal_next|]; cbn [bind];
        intros [= <- <-]; cbn [player_cards banker_cards natural firstn app];
        (split; [split; [discriminate|tauto]|discriminate]).
    + cbn [bind]. destruct (hand_total [c0; c2] <=? 5); [deal_next|]; cbn [bind];
        intros [= <- <-]; cbn [player_cards banker_cards natural firstn app];
        (split; [split; [discriminate|tauto]|discriminate]).
Qed.

Lemma play_hand_consistent shoe pos res pos' :
  play_hand shoe pos = Ok (res, pos') -> consistent res.
Proof.
  intros Hplay.
  pose proof (play_hand_shape _ _ _ _ Hplay)
    as (_ & _ & Hp & Hb & Hw & Hlp & Hlb & _ & _).
  pose proof (play_hand_natural_flag _ _ _ _ Hplay) as [Hflag Hnat].
  unfold consistent. tauto.
Qed.

Lemma play_hand_cards_in_shoe shoe pos res pos' :
  play_hand shoe pos = Ok (res, pos') ->
  forall c, In c (player_cards res ++ banker_cards res) -> In c shoe.
Proof.
  unfold play_hand. do 4 deal_next. cbn [app].
  repeat match goal with
  | H : py_getitem _ _ = Ok _ |- _ => apply py_getitem_In in H
  end.
  destruct (_ || _).
  - cbn [bind]. intros [= <- <-]. cbn. intuition (subst; assumption).
  - destruct (_ <=? 5).
    + deal_next. rewrite banker_reacts_rule.
      destruct (banker_rule _ _); [deal_next|]; cbn [bind];
        intros [= <- <-];
        repeat match goal with
        | H : py_getitem _ _ = Ok _ |- _ => apply py_getitem_In in H
        end; cbn; intuition (subst; assumption).
    + cbn [bind]. destruct (_ <=? 5); [deal_next|]; cbn [bind];
        intros [= <- <-];
        repeat match goal with
        | H : py_getitem _ _ = Ok _ |- _ => apply py_getitem_In in H
        end; cbn; intuition (subst; assumption).
Qed.

Lemma run_hands shoe shoe_id max_hands j pos dealt final :
  run shoe shoe_id max_hands j pos dealt final ->
  Forall (fun r => consistent r /\
                   forall c, In c (player_cards r ++ banker_cards r) -> In c shoe)
    dealt.
Proof.
  induction 1 as [j pos Hstop|j pos res pos' rest final Hgo Hplay Hrest IH].
  - constructor.
  - constructor; [|exact IH]. split.
    + exact (play_hand_consistent _ _ _ _ Hplay).
    + exact (play_hand_cards_in_shoe _ _ _ _ Hplay).
Qed.

Lemma one_deck_ranks c : In c one_deck -> 1 <= c <= 13.
Proof.
  intros Hc. vm_compute in Hc.
  repeat (destruct Hc as [<-|Hc]; [lia|]). contradiction.
Qed.

Lemma decks_ranks n c : In c (decks n) -> 1 <= c <= 13.
Proof.
  induction n as [|n IH]; [intros []|].
  change (decks (S n)) with (one_deck ++ decks n).
  intros Hc. apply in_app_or in Hc as [Hc|Hc]; [now apply one_deck_ranks|auto].
Qed.

Section ShoeHands.

Context {R : PyRandom}.

(** X14: A shoe holds nothing but ranks 1..13, and a deck count of zero or less
    gives an empty shoe. *)
Theorem build_shoe_ranks (num_decks : Z) (g : rng) :
  (forall c, In c (fst (build_shoe num_decks g)) -> 1 <= c <= 13) /\
  (num_decks <= 0 -> fst (build_shoe num_decks g) = []).
Proof.
  pose proof (build_shoe_perm num_decks g) as Hperm. split.
  - intros c Hc. apply (decks_ranks (Z.to_nat num_decks)).
    eapply Permutation_in; [symmetry; exact Hperm|exact Hc].
  - intros Hzero.
    replace (Z.to_nat num_decks) with 0%nat in Hperm by lia.
    now apply Permutation_nil.
Qed.

Lemma simulate_shoe_hands shoe_id num_decks burn_cards max_hands rng_seed w :
  exists results,
    fst (simulate_shoe shoe_id num_decks burn_cards max_hands rng_seed w)
    = Ok results /\
    Forall (fun r => consistent r /\ ranks_valid r) results.
Proof.
  destruct (simulate_shoe_run shoe_id num_decks burn_cards max_hands rng_seed w)
    as (results & final & Hsim & Hrun).
  exists results. split; [exact Hsim|].
  eapply Forall_impl; [|exact (run_hands _ _ _ _ _ _ _ Hrun)].
  intros r [Hcons Hin]. split; [exact Hcons|].
  apply Forall_forall. intros c Hc.
  apply (decks_ranks (Z.to_nat num_decks)).
  eapply Permutation_in; [symmetry; apply build_shoe_perm|].
  apply Hin. exact Hc.
Qed.

(** ** Batches *)

Lemma shoes_loop_each (P : Z -> list HandResult -> Prop)
    num_decks burn_cards max_hands :
  (forall shoe_id seed w,
     exists batch,
       fst (simulate_shoe shoe_id num_decks burn_cards max_hands (Some seed) w)
       = Ok batch /\ P shoe_id batch) ->
  forall ids g all_results w,
    exists batches,
      shoes_loop ids num_decks burn_cards max_hands g all_results w
      = (Ok (all_results ++ List.concat batches), w) /\
      Forall2 P ids batches.
Proof.
  intros Hshoe.
  induction ids as [|shoe_id ids IH]; intros g all_results w; cbn [shoes_loop].
  - exists []. cbn. rewrite app_nil_r. split; [reflexivity|constructor].
  - destruct (randint 0 (10 ^ 9) g) as [seed g'].
    destruct (Hshoe shoe_id seed w) as (batch & Hbatch & HP).
    destruct (simulate_shoe_seeded shoe_id num_decks burn_cards max_hands seed w w)
      as (Hw & _).
    destruct (simulate_shoe shoe_id num_decks burn_cards max_hands (Some seed) w)
      as [r w'].
    cbn [fst snd] in Hbatch, Hw. subst r w'.
    destruct (IH g' (all_results ++ batch) w) as (batches & Hloop & Hall).
    exists (batch :: batches). split.
    + rewrite Hloop. cbn [List.concat]. now rewrite app_assoc.
    + constructor; [exact HP|exact Hall].
Qed.

Lemma simulate_many_shoes_each (P : Z -> list HandResult -> Prop)
    num_shoes num_decks burn_cards max_hands rng_seed w :
  (forall shoe_id seed w,
     exists batch,
       fst (simulate_shoe shoe_id num_decks burn_cards max_hands (Some seed) w)
       = Ok batch /\ P shoe_id batch) ->
  exists batches,
    fst (simulate_many_shoes num_shoes num_decks burn_cards max_hands rng_seed w)
    = Ok (List.concat batches) /\
    Forall2 P (range 1 (num_shoes + 1)) batches.
Proof.
  intros Hshoe. unfold simulate_many_shoes.
  destruct (Random rng_seed w) as [g w'].
  destruct (shoes_loop_each P num_decks burn_cards max_hands Hshoe
              (range 1 (num_shoes + 1)) g [] w') as (batches & Hloop & Hall).
  exists batches. rewrite Hloop. split; [reflexivity|exact Hall].
Qed.

(** X15: Seeded or not, a batch never raises; its hands come grouped by shoe,
    one group per shoe identifier 1, ..., [num_shoes] in that order, each
    group stamped with its shoe's identifier and numbered from 1. *)
Theorem simulate_many_shoes_grouped
    (num_shoes num_decks burn_cards : Z) (max_hands rng_seed : option Z) (w : world) :
  exists batches,
    fst (simulate_many_shoes num_shoes num_decks burn_cards max_hands rng_seed w)
    = Ok (List.concat batches) /\
    Forall2 (fun sid batch =>
               Forall (fun r => shoe_id r = sid) batch /\
               map hand_number batch = numbers_from 0 (List.length batch))
      (range 1 (num_shoes + 1)) batches.
Proof.
  apply simulate_many_shoes_each. intros sid seed w'.
  destruct (simulate_shoe_run sid num_decks burn_cards max_hands (Some seed) w')
    as (results & final & Hsim & Hrun).
  exists results. split; [exact Hsim|].
  destruct (run_numbering _ _ _ _ _ _ _ Hrun) as [Hnum Hid].
  split; [exact Hid|exact Hnum].
Qed.

(** X16: Every hand of a batch is consistent (card counts, totals, winner and
    natural flag agree with its cards) and holds only ranks 1..13. *)
Theorem simulate_many_shoes_hands
    (num_shoes num_decks burn_cards : Z) (max_hands rng_seed : option Z) (w : world) :
  exists results,
    fst (simulate_many_shoes num_shoes num_decks burn_cards max_hands rng_seed w)
    = Ok results /\
    Forall (fun r => consistent r /\ ranks_valid r) results.
Proof.
  destruct (simulate_many_shoes_each
              (fun _ batch => Forall (fun r => consistent r /\ ranks_valid r) batch)
              num_shoes num_decks burn_cards max_hands rng_seed w)
    as (batches & Hsim & Hall).
  { intros sid seed w'. apply simulate_shoe_hands. }
  exists (List.concat batches). split; [exact Hsim|].
  clear Hsim. induction Hall as [|sid batch ids batches Hb _ IH]; cbn.
  - constructor.
  - apply Forall_app. split; [exact Hb|exact IH].
Qed.

End ShoeHands.

(** ** Size of a batch *)

Lemma concat_len_eq {A : Type} (c : Z) (ids : list A) (batches : list (list HandResult)) :
  Forall2 (fun _ batch => len batch = c) ids batches ->
  len (List.concat batches) = len ids * c.
Proof.
  induction 1 as [|sid batch ids batches Hb _ IH]; [reflexivity|].
  cbn [List.concat]. unfold len in *. rewrite length_app. cbn [List.length]. lia.
Qed.


Lemma range_len a b : len (range a b) = Z.max 0 (b - a).
Proof. unfold len. rewrite range_length. lia. Qed.

Section BatchSize.

Context {R : PyRandom}.

(** X17: When the cards left after the burn suffice for [cap] worst-case hands,
    every shoe yields exactly [cap] hands and the batch holds
    [num_shoes * cap] of them (none for a negative shoe count). *)
Theorem simulate_many_shoes_count
    (num_shoes num_decks burn_cards cap : Z) (rng_seed : option Z) (w : world) :
  0 <= cap ->
  6 * cap <= cards_after_burn num_decks burn_cards ->
  exists results,
    fst (simulate_many_shoes num_shoes num_decks burn_cards (Some cap) rng_seed w)
    = Ok results /\
    len results = Z.max 0 num_shoes * cap.
Proof.
  intros Hcap Hroom.
  destruct (simulate_many_shoes_each (fun _ batch => len batch = cap)
              num_shoes num_decks burn_cards (Some cap) rng_seed w)
    as (batches & Hsim & Hall).
  { intros sid seed w'.
    destruct (simulate_shoe_run sid num_decks burn_cards (Some cap) (Some seed) w')
      as (results & final & Hsim & Hrun).
    exists results. split; [exact Hsim|].
    apply (run_reaches_cap _ _ _ _ _ _ Hrun Hcap).
    now rewrite cards_after_burn_eq. }
  exists (List.concat batches). split; [exact Hsim|].
  rewrite (concat_len_eq _ _ _ Hall), range_len. f_equal. lia.
Qed.

End BatchSize.

(** The default command line: 10 shoes of 8 decks, no burn, 40 hands a
    shoe. *)
Lemma simulate_many_shoes_count_witness :
  exists results,
    fst (simulate_many_shoes (R := Lcg.random) 10 8 0 (Some 40) (Some 1) 0)
    = Ok results /\
    len results = Z.max 0 10 * 40.
Proof.
  apply (simulate_many_shoes_count (R := Lcg.random) 10 8 0 40 (Some 1) 0).
  - lia.
  - vm_compute. discriminate.
Defined.

(** ** Report *)


Lemma string_forall_impl (p q : ascii -> bool) s :
  (forall ch, p ch = true -> q ch = true) ->
  string_forall p s = true -> string_forall q s = true.
Proof.
  intros Hpq. induction s as [|ch s IH]; cbn; [reflexivity|].
  rewrite !andb_true_iff. intros [Hch Hs]. split; auto.
Qed.


Lemma digits_of_uint d : string_forall is_digit (NilEmpty.string_of_uint d) = true.
Proof. induction d; cbn; auto. Qed.

Lemma digits_of_uint_zero d : string_forall is_digit (NilZero.string_of_uint d) = true.
Proof. destruct d; try apply digits_of_uint. reflexivity. Qed.

Lemma str_digits n : 0 <= n -> string_forall is_digit (str n) = true.
Proof.
  intros Hn. unfold str. destruct n as [|p|p]; [reflexivity| |lia].
  apply digits_of_uint_zero.
Qed.


Lemma digit_not_dash ch : is_digit ch = true -> negb (is_dash ch) = true.
Proof.
  destruct ch as [[] [] [] [] [] [] [] []]; vm_compute; congruence.
Qed.


Lemma str_nonempty n : str n <> EmptyString.
Proof.
  unfold str. destruct n as [|p|p]; cbn [Z.to_int NilZero.string_of_int];
    try discriminate.
  pose proof (DecimalPos.Unsigned.to_uint_nonnil p).
  destruct (Pos.to_uint p); cbn; congruence.
Qed.

Lemma str_inj a b : str a = str b -> a = b.
Proof.
  assert (Hparse : forall n,
    NilZero.int_of_string (str n) = Some (Z.to_int n)).
  { intros n. unfold str. apply NilZero.isi.
    - destruct n as [|p|p]; cbn; try discriminate.
      intros [= H]. now apply (DecimalPos.Unsigned.to_uint_nonnil p).
    - destruct n as [|p|p]; cbn; try discriminate.
      intros [= H]. now apply (DecimalPos.Unsigned.to_uint_nonnil p). }
  intros Heq.
  pose proof (Hparse a) as Ha. rewrite Heq, Hparse in Ha.
  injection Ha as Ha.
  rewrite <- (DecimalZ.of_to a), <- (DecimalZ.of_to b). now f_equal.
Qed.

Lemma split_on_part sep part :
  string_forall (fun ch => negb (Ascii.eqb ch sep)) part = true ->
  forall rest,
    split_on sep (part ++ String sep rest) = part :: split_on sep rest.
Proof.
  induction part as [|ch part IH]; cbn [string_forall]; intros Hpart rest.
  - cbn. now rewrite Ascii.eqb_refl.
  - apply andb_true_iff in Hpart as [Hch Hpart].
    cbn [append split_on]. apply negb_true_iff in Hch. rewrite Hch.
    now rewrite IH.
Qed.

Lemma split_on_last sep part :
  string_forall (fun ch => negb (Ascii.eqb ch sep)) part = true ->
  split_on sep part = [part].
Proof.
  induction part as [|ch part IH]; cbn [string_forall]; intros Hpart.
  - reflexivity.
  - apply andb_true_iff in Hpart as [Hch Hpart].
    cbn [split_on]. apply negb_true_iff in Hch. rewrite Hch.
    now rewrite IH.
Qed.

Lemma split_on_join sep parts :
  parts <> [] ->
  Forall (fun part =>
            string_forall (fun ch => negb (Ascii.eqb ch sep)) part = true) parts ->
  split_on sep (join (String sep EmptyString) parts) = parts.
Proof.
  intros Hne Hparts. unfold join.
  induction Hparts as [|part parts Hpart Hrest IH]; [congruence|].
  destruct parts as [|part' parts].
  - now apply split_on_last.
  - change (String.concat (String sep EmptyString) (part :: part' :: parts))
      with (part ++ String sep (String.concat (String sep EmptyString) (part' :: parts)))%string.
    rewrite split_on_part by exact Hpart.
    rewrite IH by discriminate. reflexivity.
Qed.

Lemma join_nonempty sep part parts :
  part <> EmptyString -> join sep (part :: parts) <> EmptyString.
Proof.
  intros Hpart. unfold join. destruct parts as [|part' parts]; [exact Hpart|].
  change (String.concat sep (part :: part' :: parts))
    with (part ++ sep ++ String.concat sep (part' :: parts))%string.
  destruct part; [congruence|discriminate].
Qed.

Lemma map_str_inj a : forall b, map str a = map str b -> a = b.
Proof.
  induction a as [|x a IH]; intros [|y b] Heq; try discriminate; [reflexivity|].
  injection Heq as Hx Hrest. f_equal; [now apply str_inj|now apply IH].
Qed.

Lemma cards_field_inj a b :
  Forall (fun c => 0 <= c) a -> Forall (fun c => 0 <= c) b ->
  join "-" (map str a) = join "-" (map str b) -> a = b.
Proof.
  intros Ha Hb Heq.
  assert (Hdashless : forall l, Forall (fun c => 0 <= c) l ->
            Forall (fun part =>
                      string_forall (fun ch => negb (Ascii.eqb ch "-")) part = true)
              (map str l)).
  { intros l Hl. apply Forall_map. eapply Forall_impl; [|exact Hl].
    intros c Hc. cbn beta. eapply string_forall_impl; [|apply (str_digits c Hc)].
    exact digit_not_dash. }
  destruct a as [|x a], b as [|y b].
  - reflexivity.
  - symmetry in Heq. cbn [map] in Heq.
    now apply join_nonempty in Heq; [|apply str_nonempty].
  - cbn [map] in Heq.
    now apply join_nonempty in Heq; [|apply str_nonempty].
  - apply map_str_inj.
    rewrite <- (split_on_join "-" (map str (x :: a)))
      by (try discriminate; now apply Hdashless).
    rewrite <- (split_on_join "-" (map str (y :: b)))
      by (try discriminate; now apply Hdashless).
    now rewrite Heq.
Qed.

Lemma csv_row_inj r1 r2 :
  nonneg_cards r1 -> nonneg_cards r2 -> csv_row r1 = csv_row r2 -> r1 = r2.
Proof.
  unfold nonneg_cards. intros H1 H2 Heq.
  apply Forall_app in H1 as [Hp1 Hb1]. apply Forall_app in H2 as [Hp2 Hb2].
  destruct r1 as [sid1 num1 p1 b1 pt1 bt1 w1 n1], r2 as [sid2 num2 p2 b2 pt2 bt2 w2 n2].
  cbn in *. injection Heq as Hsid Hnum Hp Hb Hpt Hbt Hw Hn.
  apply cards_field_inj in Hp; [|assumption|assumption].
  apply cards_field_inj in Hb; [|assumption|assumption].
  subst. f_equal. now destruct n1, n2.
Qed.

Lemma flat_map_singleton {A B : Type} (f : A -> B) (l : list A) :
  flat_map (fun a => [f a]) l = map f l.
Proof. induction l as [|a l IH]; cbn; congruence. Qed.

Lemma export_to_csv_eq results :
  export_to_csv results = csv_header :: map csv_row results.
Proof.
  unfold export_to_csv. cbn [app].
  rewrite (fold_left_append (fun r => [csv_row r])). cbn [app].
  apply f_equal. apply flat_map_singleton.
Qed.

(** X19: The report has the header first and then one row per hand in the
    order of the hands; every row has the header's eight cells. *)
Theorem export_to_csv_rows (results : list HandResult) :
  export_to_csv results = csv_header :: map csv_row results /\
  len (export_to_csv results) = 1 + len results /\
  Forall (fun row => List.length row = 8%nat) (export_to_csv results).
Proof.
  rewrite export_to_csv_eq. split; [reflexivity|]. split.
  - unfold len. cbn [List.length]. rewrite length_map. lia.
  - constructor; [reflexivity|]. apply Forall_map.
    apply Forall_forall. intros r _. reflexivity.
Qed.

(** X20: The report loses nothing: two lists of hands whose cards are
    non-negative ranks and that give the same rows are the same list.  In
    particular a dash-joined card field determines the cards. *)
Theorem export_to_csv_lossless (results1 results2 : list HandResult) :
  Forall nonneg_cards results1 ->
  Forall nonneg_cards results2 ->
  export_to_csv results1 = export_to_csv results2 ->
  results1 = results2.
Proof.
  intros H1 H2. rewrite !export_to_csv_eq. intros [= Heq].
  revert results2 H2 Heq.
  induction H1 as [|r1 results1 Hr1 _ IH]; intros [|r2 results2] H2 Heq;
    try discriminate; [reflexivity|].
  inversion H2 as [|? ? Hr2 H2']; subst.
  cbn [map] in Heq. injection Heq as Hrow Hrest.
  f_equal.
  - apply csv_row_inj; [exact Hr1|exact Hr2|].
    unfold csv_row. congruence.
  - now apply IH.
Qed.

Lemma export_to_csv_lossless_witness :
  [mkHandResult 1 1 [8; 1] [8; 1] 9 9 "T" true]
  = [mkHandResult 1 1 [8; 1] [8; 1] 9 9 "T" true].
Proof.
  apply export_to_csv_lossless.
  - repeat constructor; lia.
  - repeat constructor; lia.
  - reflexivity.
Defined.








(** ** The whole program *)





Section Program.

Context {R : PyRandom}.




End Program.



(** ** What a hand and a run depend on *)

(** X7: A hand depends on nothing but the six cards under the cursor: two
    shoes that agree on those six cards give the same hand and move the
    cursor by the same amount. *)
Theorem play_hand_local (shoe1 : list Z) (pos1 : Z) (shoe2 : list Z) (pos2 : Z) :
  0 <= pos1 -> pos1 + 6 <= len shoe1 ->
  0 <= pos2 -> pos2 + 6 <= len shoe2 ->
  slice shoe1 pos1 (pos1 + 6) = slice shoe2 pos2 (pos2 + 6) ->
  exists res pos1' pos2',
    play_hand shoe1 pos1 = Ok (res, pos1') /\
    play_hand shoe2 pos2 = Ok (res, pos2') /\
    pos1' - pos1 = pos2' - pos2.
Proof.
  intros Hpos1 Hlen1 Hpos2 Hlen2 Hsame.
  rewrite !(slice_cons shoe1) in Hsame by lia.
  rewrite !(slice_cons shoe2) in Hsame by lia.
  injection Hsame as H0 H1 H2 H3 H4 H5 _.
  unfold play_hand.
  rewrite (deal_card_in_range shoe1 pos1), (deal_card_in_range shoe2 pos2) by lia.
  cbn [bind].
  rewrite (deal_card_in_range shoe1 (pos1 + 1)),
    (deal_card_in_range shoe2 (pos2 + 1)) by lia.
  cbn [bind].
  rewrite (deal_card_in_range shoe1 (pos1 + 1 + 1)),
    (deal_card_in_range shoe2 (pos2 + 1 + 1)) by lia.
  cbn [bind].
  rewrite (deal_card_in_range shoe1 (pos1 + 1 + 1 + 1)),
    (deal_card_in_range shoe2 (pos2 + 1 + 1 + 1)) by lia.
  cbn [bind app].
  rewrite H0, H1, H2, H3.
  destruct (_ || _).
  { cbn [bind]. eexists _, _, _. split; [reflexivity|]. split; [reflexivity|lia]. }
  destruct (_ <=? 5).
  - rewrite (deal_card_in_range shoe1 (pos1 + 1 + 1 + 1 + 1)),
      (deal_card_in_range shoe2 (pos2 + 1 + 1 + 1 + 1)) by lia.
    cbn [bind]. rewrite H4, !banker_reacts_rule.
    destruct (banker_rule _ _).
    + rewrite (deal_card_in_range shoe1 (pos1 + 1 + 1 + 1 + 1 + 1)),
        (deal_card_in_range shoe2 (pos2 + 1 + 1 + 1 + 1 + 1)) by lia.
      cbn [bind]. rewrite H5.
      eexists _, _, _. split; [reflexivity|]. split; [reflexivity|lia].
    + cbn [bind]. eexists _, _, _. split; [reflexivity|]. split; [reflexivity|lia].
  - cbn [bind]. destruct (_ <=? 5).
    + rewrite (deal_card_in_range shoe1 (pos1 + 1 + 1 + 1 + 1)),
        (deal_card_in_range shoe2 (pos2 + 1 + 1 + 1 + 1)) by lia.
      cbn [bind]. rewrite H4.
      eexists _, _, _. split; [reflexivity|]. split; [reflexivity|lia].
    + cbn [bind]. eexists _, _, _. split; [reflexivity|]. split; [reflexivity|lia].
Qed.

Lemma play_hand_local_witness :
  exists res pos1' pos2',
    play_hand [3; 1; 2; 3; 6; 10; 9] 0 = Ok (res, pos1') /\
    play_hand [7; 3; 1; 2; 3; 6; 10] 1 = Ok (res, pos2') /\
    pos1' - 0 = pos2' - 1.
Proof.
  apply (play_hand_local [3; 1; 2; 3; 6; 10; 9] 0 [7; 3; 1; 2; 3; 6; 10] 1);
    vm_compute; congruence.
Defined.

Lemma run_restamp shoe sid1 sid2 max_hands j pos dealt final :
  run shoe sid1 max_hands j pos dealt final ->
  run shoe sid2 max_hands j pos (map (fun r => set_shoe_id r sid2) dealt) final.
Proof.
  induction 1 as [j pos Hstop|j pos res pos' rest final Hgo Hplay Hrest IH].
  - now apply run_stop.
  - cbn [map].
    change (set_shoe_id (stamp res sid1 (Z.of_nat j + 1)) sid2)
      with (stamp res sid2 (Z.of_nat j + 1)).
    now apply run_step with (pos' := pos').
Qed.

Section ShoeIdentifier.

Context {R : PyRandom}.

(** X13: The shoe identifier is only a stamp: running the same shoe under
    another identifier gives the same hands with that identifier written
    in. *)
Theorem simulate_shoe_identifier
    (sid1 sid2 num_decks burn_cards : Z) (max_hands rng_seed : option Z) (w : world) :
  exists results,
    fst (simulate_shoe sid1 num_decks burn_cards max_hands rng_seed w)
    = Ok results /\
    fst (simulate_shoe sid2 num_decks burn_cards max_hands rng_seed w)
    = Ok (map (fun r => set_shoe_id r sid2) results).
Proof.
  destruct (simulate_shoe_run sid1 num_decks burn_cards max_hands rng_seed w)
    as (results & final & Hsim & Hrun).
  destruct (simulate_shoe_run sid2 num_decks burn_cards max_hands rng_seed w)
    as (results' & final' & Hsim' & Hrun').
  exists results. split; [exact Hsim|]. rewrite Hsim'. f_equal.
  apply (run_restamp _ _ sid2) in Hrun.
  now destruct (run_functional _ _ _ _ _ _ _ Hrun' _ _ Hrun).
Qed.

End ShoeIdentifier.

(** A one-deck shoe without burn or cap: between 8 and 13 hands. *)
Lemma simulate_shoe_hand_count_witness :
  exists results,
    fst (simulate_shoe (R := Lcg.random) 1 1 0 None (Some 7) 0) = Ok results /\
    4 * len results <= 52 /\ 52 < 6 * (len results + 1).
Proof.
  destruct (simulate_shoe_hand_count (R := Lcg.random) 1 1 0 None (Some 7) 0)
    as (results & Hsim & Hfour & _ & Hsix).
  exists results. split; [exact Hsim|].
  split; [exact Hfour|]. apply Hsix. reflexivity.
Defined.

Lemma build_shoe_ranks_witness :
  fst (build_shoe (R := Lcg.random) 0 5) = [].
Proof.
  apply (build_shoe_ranks (R := Lcg.random) 0 5). lia.
Defined.
